(** * Batheart: the adaptive polling daemon of [cmd/root.go]

    A shallow embedding of the daemon in [cmd/root.go]: the threshold test
    [inThresholdRange], the body of the polling loop of [runDaemon], the
    configuration plumbing ([parseConfig], [handleConfigError],
    [acquireConfig], ...) and the entry point [Execute].

    Go's [uint] is modelled as [Z] with the wrap-around written out, for both
    widths the language allows.  The process state (the package-level koanf
    instance [k] and the variables of [runDaemon] that the watch callback
    shares with the loop) is threaded by a small state monad that also
    records a trace of the observable effects and distinguishes a normal
    return from [os.Exit] and from a run-time panic. *)

From stdpp Require Import base gmap strings list.
From Stdlib Require Import ZArith Lia.

Local Open Scope Z_scope.

(** ** Unsigned machine integers *)

(** Go leaves the width of [uint] to the platform: 32 or 64 bits. *)
Inductive wordsize : Set := W32 | W64.

Definition bits (ws : wordsize) : Z :=
  match ws with W32 => 32 | W64 => 64 end.

Definition modulus (ws : wordsize) : Z := 2 ^ bits ws.

Definition maxUint (ws : wordsize) : Z := modulus ws - 1.

(** The values of type [uint]. *)
Definition isUint (ws : wordsize) (x : Z) : Prop := 0 <= x < modulus ws.

(** The values of type [uint8], the result type of [battery.Level]. *)
Definition isUint8 (x : Z) : Prop := 0 <= x <= 255.

Definition wrap (ws : wordsize) (x : Z) : Z := x mod modulus ws.

(** [a + b] and [a - b] on [uint]: computed modulo [2 ^ bits]. *)
Definition uadd (ws : wordsize) (a b : Z) : Z := wrap ws (a + b).
Definition usub (ws : wordsize) (a b : Z) : Z := wrap ws (a - b).

(** The conversion [uint(c)] of an unsigned value. *)
Definition uint (ws : wordsize) (c : Z) : Z := wrap ws c.

(** ** Durations ([time.Duration], in nanoseconds) *)

Definition Second : Z := 1000000000.
Definition Minute : Z := 60 * Second.

(** ** Errors *)

(** An [error] value, as far as the program looks at it: [errors.Is(err,
    os.ErrNotExist)] tells the first constructor from the second, and [%v]
    prints the text. *)
Inductive error : Set :=
| ErrNotExist (text : string)
| ErrOther (text : string).

Definition Error (e : error) : string :=
  match e with ErrNotExist t => t | ErrOther t => t end.

Definition isNotExist (e : error) : bool :=
  match e with ErrNotExist _ => true | ErrOther _ => false end.

(** ** Configuration data *)

(** [type config struct { Threshold uint }] *)
Record config : Set := Config { Threshold : Z }.

(** What a loaded document binds a key to, as far as decoding into a [uint]
    field goes: an integer, which the decoder converts, or anything the
    decoder refuses for that field. *)
Inductive value : Set :=
| VInt (n : Z)
| VOther (repr : string).

(** ** Observable effects *)

Inductive event : Set :=
| LogLine (msg : string)                               (* package log *)
| Stdout (msg : string)                                (* fmt.Println *)
| WriteFile (path data : string) (res : option error)  (* os.WriteFile *)
| MkdirAll (path : string) (res : option error)        (* os.MkdirAll *)
| NewTicker (d : Z)                                    (* time.NewTicker *)
| TickerReset (d : Z)                                  (* ticker.Reset *)
| TickerStop.                                          (* ticker.Stop *)

(** ** Process state *)

Record state : Type := State {
  k : gmap string value;   (* the package-level koanf instance *)
  cfg : option config;     (* [cfg *config] of runDaemon; [None] is nil *)
  prevCapacity : Z;        (* [prevCapacity] of runDaemon *)
  ticker : option Z        (* period of runDaemon's ticker, once created *)
}.

Definition set_k (m : gmap string value) (s : state) : state :=
  State m (cfg s) (prevCapacity s) (ticker s).
Definition set_cfg (c : option config) (s : state) : state :=
  State (k s) c (prevCapacity s) (ticker s).
Definition set_prevCapacity (p : Z) (s : state) : state :=
  State (k s) (cfg s) p (ticker s).
Definition set_ticker (t : option Z) (s : state) : state :=
  State (k s) (cfg s) (prevCapacity s) t.

(** ** The monad of the embedding *)

(** How a computation ends: it returns, the process exits ([os.Exit], which
    runs no deferred call), it panics, or it is left waiting for an event
    that never comes. *)
Inductive outcome (A : Type) : Type :=
| Ret (a : A)
| Exit (code : Z)
| Panic (msg : string)
| Blocked.
Arguments Ret {A} a.
Arguments Exit {A} code.
Arguments Panic {A} msg.
Arguments Blocked {A}.

Definition M (A : Type) : Type := state -> list event * outcome (A * state).

Definition ret {A} (a : A) : M A := fun s => ([], Ret (a, s)).

Definition bind {A B} (m : M A) (f : A -> M B) : M B := fun s =>
  match m s with
  | (t, Ret (a, s')) => let (t', r) := f a s' in (t ++ t', r)
  | (t, Exit c) => (t, Exit c)
  | (t, Panic msg) => (t, Panic msg)
  | (t, Blocked) => (t, Blocked)
  end.

#[global] Instance M_ret : MRet M := @ret.
#[global] Instance M_bind : MBind M := fun A B f m => bind m f.

Definition emit (e : event) : M unit := fun s => ([e], Ret (tt, s)).
Definition gets {A} (f : state -> A) : M A := fun s => ([], Ret (f s, s)).
Definition modify (f : state -> state) : M unit := fun s => ([], Ret (tt, f s)).
Definition exit {A} (code : Z) : M A := fun _ => ([], Exit code).
Definition panic {A} (msg : string) : M A := fun _ => ([], Panic msg).
Definition block {A} : M A := fun _ => ([], Blocked).

(** [defer]: the calls registered in a function run when it returns or
    panics, the last registered first; [deferred] is that stack, its head the
    call registered last. *)
Fixpoint runDeferred (deferred : list (M unit)) : M unit :=
  match deferred with
  | [] => mret tt
  | call :: rest => call ;; runDeferred rest
  end.

Definition withDeferred {A} (deferred : list (M unit)) (body : M A) : M A := fun s =>
  match body s with
  | (t, Ret (a, s')) =>
      let (t', r) := (runDeferred deferred ;; mret a) s' in (t ++ t', r)
  | (t, Panic msg) =>
      (* the state at the panic is not kept by [outcome]; the deferred calls
         of this program do not read it *)
      let (t', r) := (runDeferred deferred ;; panic msg) s in (t ++ t', r)
  | (t, Exit c) => (t, Exit c)
  | (t, Blocked) => (t, Blocked)
  end.

(** ** Library calls *)

Definition log_Printf (msg : string) : M unit := emit (LogLine msg).
Definition log_Println (msg : string) : M unit := emit (LogLine msg).
Definition fmt_Println (msg : string) : M unit := emit (Stdout msg).

(** [log.Fatalf]: the line is logged and the process exits with status 1. *)
Definition log_Fatalf (msg : string) : M unit :=
  log_Printf msg ;; exit 1.

Definition time_NewTicker (d : Z) : M unit :=
  emit (NewTicker d) ;; modify (set_ticker (Some d)).
Definition ticker_Reset (d : Z) : M unit :=
  emit (TickerReset d) ;; modify (set_ticker (Some d)).
Definition ticker_Stop : M unit := emit TickerStop.

(** Dereferencing a pointer; nil panics. *)
Definition deref {A} (p : option A) : M A :=
  match p with
  | Some a => mret a
  | None => panic "runtime error: invalid memory address or nil pointer dereference"
  end.

(** ** The daemon *)

Definition batteryCapacityPath : string := "/sys/class/power_supply/BAT0/capacity".
Definition conserveSetPath : string :=
  "/sys/bus/platform/drivers/ideapad_acpi/VPC2004:00/conservation_mode".

(** [setConservationMode(b)]; [werr] is what [os.WriteFile] answers. *)
Definition setConservationMode (werr : option error) (b : bool) : M unit :=
  let enabled := if b then "1" else "0" in
  emit (WriteFile conserveSetPath enabled werr) ;;
  match werr with
  | Some err => log_Printf ("can't change conservation mode: " +:+ Error err)
  | None => log_Println ("Changed conservation mode to: " +:+ enabled)
  end.

(** [inThresholdRange(capacity, cfg)]: both comparisons are on [uint], so
    [cfg.Threshold-1] and [cfg.Threshold+1] wrap. *)
Definition inThresholdRange (ws : wordsize) (capacity : Z) (cfg : option config)
  : M bool :=
  c ← deref cfg;
  mret ((capacity >? usub ws (Threshold c) 1) && (capacity <? uadd ws (Threshold c) 1)).

(** What one expiry of the ticker finds: the answers of [battery.Level], of
    [battery.IsCharging] and of the write to the conservation file, each
    used only if the body gets that far. *)
Record tickInput : Set := TickInput {
  level : Z * option error;
  isCharging : bool * option error;
  writeErr : option error
}.

(** The body of [case <-ticker.C] in [runDaemon]; returning is the loop's
    [continue] or the end of the body. *)
Definition tickBody (ws : wordsize) (inp : tickInput) : M unit :=
  let '(c, err) := level inp in
  match err with
  | Some e => log_Printf ("Error reading battery capacity: " +:+ Error e)
  | None =>
      let capacity := uint ws c in
      prev ← gets prevCapacity;
      if capacity =? prev then mret tt
      else
        modify (set_prevCapacity capacity) ;;
        let '(charging, err) := isCharging inp in
        match err with
        | Some e => log_Printf ("Error checking battery charging status: " +:+ Error e)
        | None => mret tt
        end ;;
        cfg ← gets cfg;
        inRange ← inThresholdRange ws capacity cfg;
        if inRange && charging then
          ticker_Reset (1 * Second) ;;
          setConservationMode (writeErr inp) true
        else if negb charging then
          setConservationMode (writeErr inp) false ;;
          ticker_Reset (Minute * 5)
        else
          ticker_Reset (Minute * 5) ;;
          setConservationMode (writeErr inp) true
  end.

(** ** Configuration *)

(** A result paired with an error, of which the program reads one side. *)
Inductive result (A : Type) : Type :=
| Ok (a : A)
| Err (e : error).
Arguments Ok {A} a.
Arguments Err {A} e.

(** What the file system and the TOML parser answer to the calls made while
    the configuration is set up. *)
Record configEnv : Type := ConfigEnv {
  mkdirRes : option error;                          (* os.MkdirAll *)
  tomlMarshal : gmap string value -> result string; (* k.Marshal(parser) *)
  writeRes : option error                           (* os.WriteFile *)
}.

(** [k.Load(provider, parser)]: [res] is what reading and parsing the source
    gave; the keys read are merged over those already in [k], and nothing
    changes when it fails. *)
Definition k_Load (res : result (gmap string value)) : M (option error) :=
  match res with
  | Ok m => modify (fun s => set_k (m ∪ k s) s) ;; mret None
  | Err e => mret (Some e)
  end.

(** Decoding a value into a [uint] field. *)
Definition decodeUint (ws : wordsize) (v : value) : result Z :=
  match v with
  | VInt n => Ok (wrap ws n)
  | VOther repr => Err (ErrOther ("cannot decode into uint: " +:+ repr))
  end.

(** ASCII letters in lower case. *)
Definition toLower (a : Ascii.ascii) : Ascii.ascii :=
  let n := Ascii.N_of_ascii a in
  if ((65 <=? n) && (n <=? 90))%N then Ascii.ascii_of_N (n + 32) else a.

(** The UTF-8 encoding of the one character outside ASCII that folds to the
    ASCII letter [c]: U+017F for s and U+212A for k; no other ASCII letter
    has one. *)
Definition foldAlternative (c : Ascii.ascii) : option string :=
  if Ascii.eqb (toLower c) (Ascii.ascii_of_N 115) then
    Some (String (Ascii.ascii_of_N 197) (String (Ascii.ascii_of_N 191) EmptyString))
  else if Ascii.eqb (toLower c) (Ascii.ascii_of_N 107) then
    Some (String (Ascii.ascii_of_N 226)
            (String (Ascii.ascii_of_N 132)
               (String (Ascii.ascii_of_N 170) EmptyString)))
  else None.

Fixpoint stripPrefix (p s : string) : option string :=
  match p with
  | EmptyString => Some s
  | String a p' =>
      match s with
      | String b s' => if Ascii.eqb a b then stripPrefix p' s' else None
      | EmptyString => None
      end
  end.

(** [strings.EqualFold(s, t)] for a [t] made of ASCII characters, which the
    field names of this program are: equality under Unicode simple case
    folding. *)
Fixpoint EqualFold (s t : string) {struct t} : bool :=
  match t with
  | EmptyString => match s with EmptyString => true | String _ _ => false end
  | String c t' =>
      match s with
      | EmptyString => false
      | String a s' =>
          if Ascii.eqb (toLower a) (toLower c) then EqualFold s' t'
          else
            match foldAlternative c with
            | Some alt =>
                match stripPrefix alt s with
                | Some rest => EqualFold rest t'
                | None => false
                end
            | None => false
            end
      end
  end.

(** The value the decoder finds for a struct field in the store: that of the
    key equal to the field's name, and without such a key that of a key that
    equals it up to case.  Of several such keys the decoder takes the one
    its iteration over the map meets first, which Go leaves open; here it is
    the first in the order of the map, and nothing below depends on which
    one it is. *)
Definition fieldValue (field : string) (m : gmap string value) : option value :=
  match m !! field with
  | Some v => Some v
  | None =>
      snd <$> head (List.filter (fun kv => EqualFold kv.1 field) (map_to_list m))
  end.

(** [k.Unmarshal("", &cfg)] on a zero [cfg]: a field for which the store has
    no value stays at zero. *)
Definition k_Unmarshal (ws : wordsize) : M (result config) :=
  m ← gets k;
  match fieldValue "threshold" m with
  | None => mret (Ok (Config 0))
  | Some v =>
      match decodeUint ws v with
      | Ok n => mret (Ok (Config n))
      | Err e => mret (Err e)
      end
  end.

(** The ticks, signals and configuration changes that reach the daemon. *)
Record watchEvent : Type := WatchEvent {
  watchErr : option error;              (* the [err] handed to the callback *)
  reload : result (gmap string value)   (* what re-reading the file gives *)
}.

Inductive stimulus : Type :=
| Signal                          (* a value on [sigChan] *)
| Tick (inp : tickInput)          (* a value on [ticker.C] *)
| ConfigChanged (ev : watchEvent) (* the watcher runs its callback *).

(** The line of [logCfgIssue]: "Config issue, can't %s ----> %v". *)
Definition cfgIssueLine (action : string) (err : error) : string :=
  "Config issue, can't " +:+ action +:+ " ----> " +:+ Error err.

Arguments cfgIssueLine : simpl never.

Section Daemon.

(** [uint]'s width, and [log.Fatalf], which the program reaches through
    [logCfgIssue] only.  The program runs with [log_Fatalf]; the other
    instance below shows which lines of the code come after a call of
    it. *)
Variable ws : wordsize.
Variable Fatalf : string -> M unit.

Definition logCfgIssue (action : string) (err : error) : M unit :=
  Fatalf (cfgIssueLine action err).

Definition loadDefaultConfig : M unit :=
  _ ← k_Load (Ok {[ "threshold" := VInt 80 ]});
  mret tt.

Definition createConfigDir (env : configEnv) (path : string) : M bool :=
  emit (MkdirAll path (mkdirRes env)) ;;
  match mkdirRes env with
  | Some err => logCfgIssue "create config file" err ;; mret false
  | None => mret true
  end.

Definition createConfigFile (env : configEnv) (path : string) : M bool :=
  m ← gets k;
  match tomlMarshal env m with
  | Err err => logCfgIssue "marshal" err ;; mret false
  | Ok data =>
      emit (WriteFile path data (writeRes env)) ;;
      match writeRes env with
      | Some err => logCfgIssue "write to config file" err ;; mret false
      | None => mret true
      end
  end.

Definition acquireConfig (env : configEnv) (dirPath fullPath : string) : M bool :=
  loadDefaultConfig ;;
  dirOk ← createConfigDir env dirPath;
  if dirOk : bool then createConfigFile env fullPath else mret false.

Definition handleConfigError (env : configEnv) (dirPath fullPath : string)
  (err : option error) : M bool :=
  match err with
  | Some e =>
      if negb (isNotExist e) then
        logCfgIssue "load" e ;; mret false
      else
        acquired ← acquireConfig env dirPath fullPath;
        if negb acquired then mret false else mret true
  | None => mret true
  end.

Definition parseConfig (load : result (gmap string value))
  (errHandler : option error -> M bool) : M (option config) :=
  err ← k_Load load;
  handled ← errHandler err;
  if negb handled then mret None
  else
    r ← k_Unmarshal ws;
    match r with
    | Err err => logCfgIssue "parse" err ;; mret None
    | Ok c => mret (Some c)
    end.

(** The callback given to [provider.Watch]. *)
Definition watchCallback (ev : watchEvent) : M unit :=
  match watchErr ev with
  | Some err => log_Printf ("Error in config Watch: " +:+ Error err)
  | None =>
      log_Println "Config changed, reloading!" ;;
      modify (set_k ∅) ;;
      c ← parseConfig (reload ev) (fun _ => mret true);
      modify (set_cfg c)
  end.

(** The [for { select { ... } }] of [runDaemon], driven by the stimuli
    that arrive; the callback runs between two rounds of the loop. *)
Fixpoint daemonLoop (sched : list stimulus) : M unit :=
  match sched with
  | [] => block
  | Signal :: _ => mret tt
  | Tick inp :: rest => tickBody ws inp ;; daemonLoop rest
  | ConfigChanged ev :: rest => watchCallback ev ;; daemonLoop rest
  end.

(** [runDaemon(provider, cfg)]; [watchRes] is what [provider.Watch]
    returns. *)
Definition runDaemon (watchRes : option error) (sched : list stimulus)
  (cfg0 : option config) : M unit :=
  modify (set_cfg cfg0) ;;
  match watchRes with
  | Some err => log_Printf ("Config watch error: " +:+ Error err)
  | None =>
      time_NewTicker Minute ;;
      let deferred := [] in
      let deferred := ticker_Stop :: deferred in
      let deferred := log_Println "Batheart has been shut down" :: deferred in
      withDeferred deferred (
        modify (set_prevCapacity 0) ;;
        log_Println "Batheart have been enabled" ;;
        daemonLoop sched)
  end.

(** Everything outside the program that one run of [Execute] meets: the
    answers of the operating system and the watcher, and [filepath.Join],
    which the library defines (it joins and cleans the path) and of which
    nothing is assumed here. *)
Record world : Type := World {
  userConfigDir : result string;            (* os.UserConfigDir *)
  filepath_Join : string -> string -> string; (* filepath.Join, of the library *)
  startupLoad : result (gmap string value); (* the first load of the file *)
  env : configEnv;
  watchRes : option error;                  (* provider.Watch *)
  schedule : list stimulus
}.

Definition Execute (w : world) : M unit :=
  configHome ← match userConfigDir w with
               | Err err => logCfgIssue "obtain user config dir" err ;; mret ""
               | Ok dir => mret dir
               end;
  let dirPath := filepath_Join w configHome "batheart" in
  let fullPath := filepath_Join w dirPath "config.toml" in
  c ← parseConfig (startupLoad w) (handleConfigError (env w) dirPath fullPath);
  match c with
  | None => fmt_Println "Using default config"
  | Some _ => mret tt
  end ;;
  runDaemon (watchRes w) (schedule w) c.

End Daemon.

(** The state of the process when [Execute] starts: [k = koanf.New(".")]. *)
Definition initial : state := State ∅ None 0 None.

(** A logger that returns: [logCfgIssue] would then fall through to the
    statement after it. *)
Definition Fatalf_returning (msg : string) : M unit := log_Printf msg.

(** * What the properties are stated with *)

(** The data written to the conservation file, in order. *)
Fixpoint conservationWrites (t : list event) : list string :=
  match t with
  | [] => []
  | WriteFile path data _ :: rest =>
      if String.eqb path conserveSetPath then data :: conservationWrites rest
      else conservationWrites rest
  | _ :: rest => conservationWrites rest
  end.

(** The periods given to [ticker.Reset], in order. *)
Fixpoint tickerResets (t : list event) : list Z :=
  match t with
  | [] => []
  | TickerReset d :: rest => d :: tickerResets rest
  | _ :: rest => tickerResets rest
  end.

(** The line logged when [battery.IsCharging] reports an error. *)
Definition chargingLog (cerr : option error) : list event :=
  match cerr with
  | Some e => [LogLine ("Error checking battery charging status: " +:+ Error e)]
  | None => []
  end.

(** The trace of [setConservationMode(b)]. *)
Definition switchTrace (werr : option error) (b : bool) : list event :=
  let enabled := if b then "1" else "0" in
  [WriteFile conserveSetPath enabled werr;
   LogLine (match werr with
            | Some err => "can't change conservation mode: " +:+ Error err
            | None => "Changed conservation mode to: " +:+ enabled
            end)].

(** What a round decided: it returned, wrote [data] to the conservation
    file and nothing else there, and reset the ticker once, to [period]. *)
Definition decides (r : list event * outcome (unit * state))
  (data : string) (period : Z) : Prop :=
  exists (t : list event) (s' : state),
    r = (t, Ret (tt, s')) /\
    conservationWrites t = [data] /\
    tickerResets t = [period] /\
    ticker s' = Some period.

(** The fast poll as the specification words it: at every threshold, 0
    included. *)
Definition fast_poll_at_every_threshold : Prop :=
  forall (ws : wordsize) (c : Z) (cerr werr : option error) (s : state) (cf : config),
    isUint8 c -> cfg s = Some cf ->
    uint ws c <> prevCapacity s ->
    uint ws c = Threshold cf ->
    decides (tickBody ws (TickInput (c, None) (true, cerr) werr) s) "1" (1 * Second).

(** The switch-off as the specification words it: in every round in which
    the battery is not charging, skipped or not. *)
Definition not_charging_disables_in_every_round : Prop :=
  forall (ws : wordsize) (lvl : Z * option error) (cerr werr : option error)
    (s : state) (cf : config),
    cfg s = Some cf ->
    decides (tickBody ws (TickInput lvl (false, cerr) werr) s) "0" (Minute * 5).

(** Every event a computation emits satisfies [P], from any state. *)
Definition emits {A} (P : event -> Prop) (m : M A) : Prop :=
  forall s : state, Forall P (m s).1.




(** [wp m Q s]: run from [s], [m] does not panic, and if it returns, its
    result and final state satisfy [Q]. *)
Definition wp {A} (m : M A) (Q : A -> state -> Prop) (s : state) : Prop :=
  match (m s).2 with
  | Ret (a, s') => Q a s'
  | Panic _ => False
  | Exit _ | Blocked => True
  end.

(** The loop has a configuration to read. *)
Definition has_cfg (s : state) : Prop := cfg s <> None.

(** Every event of the run from [s] satisfies [P]; if the run returns, the
    result and the final state satisfy [Q]; if the process exits, the status
    is 1. *)
Definition traced {A} (P : event -> Prop) (m : M A) (Q : A -> state -> Prop)
  (s : state) : Prop :=
  Forall P (m s).1 /\
  match (m s).2 with
  | Ret (a, s') => Q a s'
  | Exit c => c = 1
  | Panic _ | Blocked => True
  end.

(** The effects of the running daemon: lines in the log, "0" or "1" written
    to the conservation file, and the ticker created with a period of one
    minute, reset to one second or five minutes, and stopped. *)
Definition daemonEvent (e : event) : Prop :=
  match e with
  | LogLine _ => True
  | WriteFile path data _ => path = conserveSetPath /\ (data = "0" \/ data = "1")
  | NewTicker d => d = Minute
  | TickerReset d => d = 1 * Second \/ d = Minute * 5
  | TickerStop => True
  | Stdout _ | MkdirAll _ _ => False
  end.

Definition notStdout (e : event) : Prop :=
  match e with Stdout _ => False | _ => True end.

Definition isLogLine (e : event) : Prop :=
  match e with LogLine _ => True | _ => False end.

(** The expiries of the ticker among the stimuli. *)
Fixpoint tickCount (sched : list stimulus) : nat :=
  match sched with
  | [] => 0
  | Tick _ :: rest => S (tickCount rest)
  | _ :: rest => tickCount rest
  end.

(** * Properties *)

(** ** Arithmetic of [uint] *)

Lemma modulus_large (ws : wordsize) : 256 < modulus ws.
Proof. destruct ws; reflexivity. Qed.

Lemma wrap_small (ws : wordsize) (x : Z) : isUint ws x -> wrap ws x = x.
Proof. intros H. apply Z.mod_small, H. Qed.

Lemma wrap_isUint (ws : wordsize) (x : Z) : isUint ws (wrap ws x).
Proof.
  apply Z.mod_pos_bound. pose proof (modulus_large ws). lia.
Qed.

Lemma uint_of_uint8 (ws : wordsize) (c : Z) : isUint8 c -> uint ws c = c.
Proof.
  intros H. apply wrap_small. pose proof (modulus_large ws).
  unfold isUint8 in H. unfold isUint. lia.
Qed.

Lemma usub_zero_one (ws : wordsize) : usub ws 0 1 = maxUint ws.
Proof. destruct ws; reflexivity. Qed.

Lemma uadd_max_one (ws : wordsize) : uadd ws (maxUint ws) 1 = 0.
Proof. destruct ws; reflexivity. Qed.

(** The band test of [inThresholdRange] on two [uint] values. *)
Lemma band_true_iff (ws : wordsize) (capacity threshold : Z) :
  isUint ws capacity -> isUint ws threshold ->
  (capacity >? usub ws threshold 1) && (capacity <? uadd ws threshold 1) = true
  <-> capacity = threshold /\ 1 <= threshold < maxUint ws.
Proof.
  intros Hc Ht. unfold isUint in *.
  rewrite andb_true_iff, Z.gtb_lt, Z.ltb_lt.
  destruct (Z.eq_dec threshold 0) as [-> | Hz].
  { rewrite usub_zero_one. unfold maxUint. lia. }
  destruct (Z.eq_dec threshold (maxUint ws)) as [-> | Hm].
  { rewrite uadd_max_one. lia. }
  unfold maxUint in *. unfold usub, uadd, wrap.
  rewrite !Z.mod_small by lia. lia.
Qed.

Ltac uint_range := unfold isUint, isUint8, maxUint, modulus, bits in *; lia.

(** ** Running monadic code *)

Ltac unfold_M :=
  unfold mbind, M_bind, mret, M_ret, bind, ret, emit, gets, modify, exit,
    panic, block in *.

Ltac run_M :=
  unfold log_Fatalf, log_Printf, log_Println, fmt_Println, ticker_Reset,
    time_NewTicker, ticker_Stop, setConservationMode, inThresholdRange,
    deref in *;
  unfold_M; cbn.

Lemma run_bind {A B} (m : M A) (f : A -> M B) (s s' : state) (t : list event) (a : A) :
  m s = (t, Ret (a, s')) ->
  (m ≫= f) s = (t ++ (f a s').1, (f a s').2).
Proof.
  intros Hm. unfold_M. rewrite Hm. now destruct (f a s').
Qed.

(** ** The threshold test *)

Lemma inThresholdRange_returns (ws : wordsize) (capacity : Z) (c : config) (s : state) :
  inThresholdRange ws capacity (Some c) s =
  ([], Ret ((capacity >? usub ws (Threshold c) 1) && (capacity <? uadd ws (Threshold c) 1), s)).
Proof. reflexivity. Qed.

(** [inThresholdRange] on the whole of [uint]: for a threshold of at least 1
    the result is true exactly when the capacity equals the threshold and
    the threshold is below the largest [uint], where the upper bound
    [threshold+1] wraps to 0. *)
Lemma inThresholdRange_on_uint (ws : wordsize) (capacity threshold : Z) (s : state) :
  isUint ws capacity -> isUint ws threshold -> 1 <= threshold ->
  exists b : bool,
    inThresholdRange ws capacity (Some (Config threshold)) s = ([], Ret (b, s)) /\
    (b = true <-> capacity = threshold /\ threshold < maxUint ws).
Proof.
  intros Hc Ht H1. rewrite inThresholdRange_returns. cbn [Threshold].
  eexists. split; [reflexivity|].
  rewrite band_true_iff by assumption. lia.
Qed.

(** C5: for every threshold of at least 1 and every capacity the loop can
    pass, the [uint] of a [uint8] level, [inThresholdRange] returns true if
    and only if the capacity equals the threshold: on integers the open band
    from [threshold-1] to [threshold+1] is the one point in its middle. *)
Theorem inThresholdRange_exact_match (ws : wordsize) (capacity threshold : Z) (s : state) :
  isUint8 capacity -> isUint ws threshold -> 1 <= threshold ->
  exists b : bool,
    inThresholdRange ws capacity (Some (Config threshold)) s = ([], Ret (b, s)) /\
    (b = true <-> capacity = threshold).
Proof.
  intros H8 Ht H1. pose proof (modulus_large ws) as Hm.
  assert (Hc : isUint ws capacity) by uint_range.
  rewrite inThresholdRange_returns. cbn [Threshold].
  eexists. split; [reflexivity|].
  rewrite band_true_iff by assumption. uint_range.
Qed.

Lemma inThresholdRange_exact_match_witness :
  exists b : bool,
    inThresholdRange W64 80 (Some (Config 80)) initial = ([], Ret (b, initial)) /\
    (b = true <-> 80 = 80).
Proof.
  apply (inThresholdRange_exact_match W64 80 80 initial); uint_range.
Defined.

(** C6: with a threshold of 0, [inThresholdRange] does not panic: the
    subtraction [threshold-1] wraps to the largest [uint], so for a capacity
    from 0 to 100 the first comparison is false and the function returns
    false. *)
Theorem inThresholdRange_threshold_zero (ws : wordsize) (capacity : Z) (s : state) :
  0 <= capacity <= 100 ->
  usub ws 0 1 = maxUint ws /\
  maxUint ws = 2 ^ bits ws - 1 /\
  (capacity >? usub ws 0 1) = false /\
  inThresholdRange ws capacity (Some (Config 0)) s = ([], Ret (false, s)).
Proof.
  intros Hc. pose proof (modulus_large ws) as Hm.
  assert (Hgt : (capacity >? usub ws 0 1) = false).
  { rewrite usub_zero_one. unfold maxUint. rewrite Z.gtb_ltb. apply Z.ltb_ge. lia. }
  repeat split; [apply usub_zero_one | exact Hgt |].
  rewrite inThresholdRange_returns. cbn [Threshold]. now rewrite Hgt.
Qed.

Lemma inThresholdRange_threshold_zero_witness :
  usub W32 0 1 = maxUint W32 /\
  maxUint W32 = 2 ^ bits W32 - 1 /\
  (0 >? usub W32 0 1) = false /\
  inThresholdRange W32 0 (Some (Config 0)) initial = ([], Ret (false, initial)).
Proof. apply (inThresholdRange_threshold_zero W32 0 initial). lia. Defined.

(** ** One round of the polling loop *)

(** A round that gets past the comparison with [prevCapacity], with a
    configuration to read. *)
Lemma tickBody_polled (ws : wordsize) (c : Z) (charging : bool)
  (cerr werr : option error) (s : state) (cf : config) :
  uint ws c <> prevCapacity s -> cfg s = Some cf ->
  tickBody ws (TickInput (c, None) (charging, cerr) werr) s =
  let capacity := uint ws c in
  let s1 := set_prevCapacity capacity s in
  if (capacity >? usub ws (Threshold cf) 1) && (capacity <? uadd ws (Threshold cf) 1)
     && charging
  then (chargingLog cerr ++ TickerReset (1 * Second) :: switchTrace werr true,
        Ret (tt, set_ticker (Some (1 * Second)) s1))
  else if negb charging
  then (chargingLog cerr ++ switchTrace werr false ++ [TickerReset (Minute * 5)],
        Ret (tt, set_ticker (Some (Minute * 5)) s1))
  else (chargingLog cerr ++ TickerReset (Minute * 5) :: switchTrace werr true,
        Ret (tt, set_ticker (Some (Minute * 5)) s1)).
Proof.
  intros Hne Hcfg. apply Z.eqb_neq in Hne.
  unfold tickBody. run_M. rewrite Hne.
  destruct cerr; cbn; rewrite Hcfg; cbn;
  destruct werr, charging;
    destruct ((uint ws c >? usub ws (Threshold cf) 1)
              && (uint ws c <? uadd ws (Threshold cf) 1)); reflexivity.
Qed.

Lemma writes_after_chargingLog (cerr : option error) (t : list event) :
  conservationWrites (chargingLog cerr ++ t) = conservationWrites t.
Proof. destruct cerr; reflexivity. Qed.

Lemma resets_after_chargingLog (cerr : option error) (t : list event) :
  tickerResets (chargingLog cerr ++ t) = tickerResets t.
Proof. destruct cerr; reflexivity. Qed.

Lemma writes_of_switchTrace (werr : option error) (b : bool) (t : list event) :
  conservationWrites (switchTrace werr b ++ t) =
  (if b then "1" else "0") :: conservationWrites t.
Proof. destruct werr, b; reflexivity. Qed.

Lemma resets_of_switchTrace (werr : option error) (b : bool) (t : list event) :
  tickerResets (switchTrace werr b ++ t) = tickerResets t.
Proof. destruct werr, b; reflexivity. Qed.

(** C1: a round in which the capacity is read and equals [prevCapacity] is
    skipped, whatever the configuration (even none) and whatever the charging
    status and the conservation file would answer: nothing is logged,
    nothing is written, the ticker is not reset and the state, the period of
    the ticker included, is unchanged. *)
Theorem tick_same_capacity_skips (ws : wordsize) (c : Z)
  (charging : bool * option error) (werr : option error) (s : state) :
  uint ws c = prevCapacity s ->
  tickBody ws (TickInput (c, None) charging werr) s = ([], Ret (tt, s)).
Proof.
  intros Heq. apply Z.eqb_eq in Heq.
  unfold tickBody. run_M. now rewrite Heq.
Qed.

Lemma tick_same_capacity_skips_witness :
  tickBody W64 (TickInput (50, None) (true, None) None)
    (State ∅ (Some (Config 80)) 50 (Some Minute))
  = ([], Ret (tt, State ∅ (Some (Config 80)) 50 (Some Minute))).
Proof.
  apply (tick_same_capacity_skips W64 50 (true, None) None
           (State ∅ (Some (Config 80)) 50 (Some Minute))).
  reflexivity.
Defined.

(** C2 (as amended): in a round that is not skipped, with the capacity equal
    to a configured threshold of at least 1 and the battery charging,
    conservation mode is enabled ("1" is written) and the ticker is reset to
    one second. *)
Theorem tick_at_threshold_polls_fast (ws : wordsize) (c : Z)
  (cerr werr : option error) (s : state) (cf : config) :
  isUint8 c -> cfg s = Some cf ->
  uint ws c <> prevCapacity s ->
  uint ws c = Threshold cf ->
  1 <= Threshold cf ->
  decides (tickBody ws (TickInput (c, None) (true, cerr) werr) s) "1" (1 * Second).
Proof.
  intros H8 Hcfg Hne Heq H1.
  rewrite (tickBody_polled ws c true cerr werr s cf Hne Hcfg). cbv zeta.
  assert (Hband : (uint ws c >? usub ws (Threshold cf) 1)
                  && (uint ws c <? uadd ws (Threshold cf) 1) = true).
  { apply band_true_iff; [apply wrap_isUint | rewrite <- Heq; apply wrap_isUint |].
    split; [exact Heq |]. rewrite <- Heq, (uint_of_uint8 ws c H8) in *.
    pose proof (modulus_large ws). uint_range. }
  rewrite Hband. cbn [andb].
  eexists _, _. split; [reflexivity |].
  rewrite writes_after_chargingLog, resets_after_chargingLog.
  destruct werr; repeat split; reflexivity.
Qed.

Lemma tick_at_threshold_polls_fast_witness :
  decides
    (tickBody W64 (TickInput (80, None) (true, None) None)
       (State ∅ (Some (Config 80)) 0 (Some Minute)))
    "1" (1 * Second).
Proof.
  apply (tick_at_threshold_polls_fast W64 80 None None
           (State ∅ (Some (Config 80)) 0 (Some Minute)) (Config 80)).
  - uint_range.
  - reflexivity.
  - vm_compute. discriminate.
  - reflexivity.
  - cbn [Threshold]. lia.
Defined.

(** With a threshold of 0 and a capacity of 0 after a capacity of 1, the
    ticker is reset to five minutes. *)
Lemma fast_poll_fails_at_threshold_zero : ~ fast_poll_at_every_threshold.
Proof.
  intros H.
  destruct (H W64 0 None None (State ∅ (Some (Config 0)) 1 (Some Minute)) (Config 0))
    as (t & s' & Hrun & _ & Hresets & _);
    [uint_range | reflexivity | vm_compute; discriminate | reflexivity |].
  vm_compute in Hrun. injection Hrun as <- <-. vm_compute in Hresets. discriminate.
Qed.

(** C3 (as amended): in a round that is not skipped, with the battery not
    charging, for any capacity and any threshold, conservation mode is
    disabled ("0" is written) and the ticker is reset to five minutes. *)
Theorem tick_not_charging_disables (ws : wordsize) (c : Z)
  (cerr werr : option error) (s : state) (cf : config) :
  cfg s = Some cf ->
  uint ws c <> prevCapacity s ->
  decides (tickBody ws (TickInput (c, None) (false, cerr) werr) s) "0" (Minute * 5).
Proof.
  intros Hcfg Hne.
  rewrite (tickBody_polled ws c false cerr werr s cf Hne Hcfg). cbv zeta.
  rewrite andb_false_r. cbn [negb].
  eexists _, _. split; [reflexivity |].
  rewrite writes_after_chargingLog, resets_after_chargingLog.
  rewrite writes_of_switchTrace, resets_of_switchTrace.
  repeat split; reflexivity.
Qed.

Lemma tick_not_charging_disables_witness :
  decides
    (tickBody W64 (TickInput (60, None) (false, None) None)
       (State ∅ (Some (Config 80)) 59 (Some Minute)))
    "0" (Minute * 5).
Proof.
  apply (tick_not_charging_disables W64 60 None None
           (State ∅ (Some (Config 80)) 59 (Some Minute)) (Config 80)).
  - reflexivity.
  - vm_compute. discriminate.
Defined.

(** A round with the capacity unchanged writes nothing, charging or not. *)
Lemma not_charging_skipped_round_writes_nothing :
  ~ not_charging_disables_in_every_round.
Proof.
  intros H.
  destruct (H W64 (50, None) None None
              (State ∅ (Some (Config 80)) 50 (Some Minute)) (Config 80) eq_refl)
    as (t & s' & Hrun & Hwrites & _).
  vm_compute in Hrun. injection Hrun as <- <-. vm_compute in Hwrites. discriminate.
Qed.

(** C4: in a round that is not skipped, with the battery charging and the
    capacity different from the threshold, conservation mode is enabled ("1"
    is written) and the ticker is reset to five minutes. *)
Theorem tick_off_threshold_polls_slowly (ws : wordsize) (c : Z)
  (cerr werr : option error) (s : state) (cf : config) :
  cfg s = Some cf -> isUint ws (Threshold cf) ->
  uint ws c <> prevCapacity s ->
  uint ws c <> Threshold cf ->
  decides (tickBody ws (TickInput (c, None) (true, cerr) werr) s) "1" (Minute * 5).
Proof.
  intros Hcfg Ht Hne Hoff.
  rewrite (tickBody_polled ws c true cerr werr s cf Hne Hcfg). cbv zeta.
  assert (Hband : (uint ws c >? usub ws (Threshold cf) 1)
                  && (uint ws c <? uadd ws (Threshold cf) 1) = false).
  { apply not_true_is_false. intros Hin.
    apply band_true_iff in Hin; [| apply wrap_isUint | exact Ht].
    destruct Hin as [Heq _]. contradiction. }
  rewrite Hband. cbn [andb negb].
  eexists _, _. split; [reflexivity |].
  rewrite writes_after_chargingLog, resets_after_chargingLog.
  destruct werr; repeat split; reflexivity.
Qed.

Lemma tick_off_threshold_polls_slowly_witness :
  decides
    (tickBody W32 (TickInput (81, None) (true, None) None)
       (State ∅ (Some (Config 80)) 80 (Some Second)))
    "1" (Minute * 5).
Proof.
  apply (tick_off_threshold_polls_slowly W32 81 None None
           (State ∅ (Some (Config 80)) 80 (Some Second)) (Config 80)).
  - reflexivity.
  - cbn [Threshold]. uint_range.
  - vm_compute. discriminate.
  - vm_compute. discriminate.
Defined.

(** C7: when reading the battery capacity fails, the error is logged and the
    round ends there: nothing is written to the conservation file, the
    ticker is not reset, and the state ([prevCapacity] and the period of the
    ticker included) is unchanged; the loop goes on with the next stimulus. *)
Theorem tick_level_error_aborts (ws : wordsize) (c : Z) (e : error)
  (charging : bool * option error) (werr : option error)
  (rest : list stimulus) (s : state) :
  let inp := TickInput (c, Some e) charging werr in
  let line := LogLine ("Error reading battery capacity: " +:+ Error e) in
  tickBody ws inp s = ([line], Ret (tt, s)) /\
  conservationWrites (tickBody ws inp s).1 = [] /\
  tickerResets (tickBody ws inp s).1 = [] /\
  daemonLoop ws log_Fatalf (Tick inp :: rest) s =
    (line :: (daemonLoop ws log_Fatalf rest s).1, (daemonLoop ws log_Fatalf rest s).2).
Proof.
  cbv zeta. repeat split.
  cbn [daemonLoop].
  now rewrite (run_bind _ _ s s
                 [LogLine ("Error reading battery capacity: " +:+ Error e)] tt).
Qed.

(** ** Reloading the configuration *)

(** C8: what the code does when re-parsing the file fails during a reload,
    against the claim that the failure is logged and the last good
    configuration kept.  When the file cannot be loaded, the failure is not
    logged, the process goes on, and the configuration in memory is replaced
    by the one decoded from the empty store, whose threshold is 0.  When the
    value found for the threshold cannot be decoded, the failure is logged by
    the fatal logger and the process exits with status 1. *)
Theorem reload_failure_resets_or_exits (ws : wordsize) (s : state) :
  (forall e : error,
     watchCallback ws log_Fatalf (WatchEvent None (Err e)) s =
     ([LogLine "Config changed, reloading!"],
      Ret (tt, set_cfg (Some (Config 0)) (set_k ∅ s)))) /\
  (forall (m : gmap string value) (v : value) (e : error),
     fieldValue "threshold" m = Some v ->
     decodeUint ws v = Err e ->
     watchCallback ws log_Fatalf (WatchEvent None (Ok m)) s =
     ([LogLine "Config changed, reloading!"; LogLine (cfgIssueLine "parse" e)],
      Exit 1)).
Proof.
  split.
  - intros e. reflexivity.
  - intros m v e Hv He.
    unfold watchCallback, parseConfig, k_Load, k_Unmarshal, logCfgIssue.
    run_M. rewrite (right_id_L ∅ (∪) m), Hv, He. reflexivity.
Qed.

Lemma reload_failure_resets_or_exits_witness :
  watchCallback W64 log_Fatalf (WatchEvent None (Err (ErrOther "toml: invalid")))
    (State {[ "threshold" := VInt 80 ]} (Some (Config 80)) 80 (Some Minute))
  = ([LogLine "Config changed, reloading!"],
     Ret (tt, State ∅ (Some (Config 0)) 80 (Some Minute))) /\
  watchCallback W64 log_Fatalf
    (WatchEvent None (Ok {[ "threshold" := VOther "high" ]}))
    (State {[ "threshold" := VInt 80 ]} (Some (Config 80)) 80 (Some Minute))
  = ([LogLine "Config changed, reloading!";
      LogLine (cfgIssueLine "parse" (ErrOther "cannot decode into uint: high"))],
     Exit 1).
Proof.
  split.
  - apply (proj1 (reload_failure_resets_or_exits W64
                    (State {[ "threshold" := VInt 80 ]} (Some (Config 80)) 80 (Some Minute)))
             (ErrOther "toml: invalid")).
  - apply (proj2 (reload_failure_resets_or_exits W64
                    (State {[ "threshold" := VInt 80 ]} (Some (Config 80)) 80 (Some Minute)))
             {[ "threshold" := VOther "high" ]} (VOther "high")
             (ErrOther "cannot decode into uint: high")).
    + vm_compute. reflexivity.
    + reflexivity.
Defined.

(** ** Traces *)

Section Emits.

Context (P : event -> Prop).

Lemma emits_ret {A} (a : A) : emits P (mret a : M A).
Proof. intros s. constructor. Qed.

Lemma emits_bind {A B} (m : M A) (f : A -> M B) :
  emits P m -> (forall a, emits P (f a)) -> emits P (m ≫= f).
Proof.
  intros Hm Hf s. specialize (Hm s). unfold_M.
  destruct (m s) as [t [[a s'] | c | msg |]]; cbn in *; try assumption.
  specialize (Hf a s'). destruct (f a s') as [t' r]. cbn in *.
  apply Forall_app. now split.
Qed.

Lemma emits_emit (e : event) : P e -> emits P (emit e).
Proof. intros He s. cbn. now repeat constructor. Qed.

Lemma emits_gets {A} (f : state -> A) : emits P (gets f).
Proof. intros s. constructor. Qed.

Lemma emits_modify (f : state -> state) : emits P (modify f).
Proof. intros s. constructor. Qed.

Lemma emits_exit {A} (c : Z) : emits P (exit c : M A).
Proof. intros s. constructor. Qed.

Lemma emits_panic {A} (msg : string) : emits P (panic msg : M A).
Proof. intros s. constructor. Qed.

Lemma emits_block {A} : emits P (block : M A).
Proof. intros s. constructor. Qed.

End Emits.

Ltac emits_step :=
  lazymatch goal with
  | |- emits _ (mret _) => apply emits_ret
  | |- emits _ (_ ≫= _) => apply emits_bind; [| intros ?]
  | |- emits _ (emit _) => apply emits_emit; try reflexivity
  | |- emits _ (gets _) => apply emits_gets
  | |- emits _ (modify _) => apply emits_modify
  | |- emits _ (exit _) => apply emits_exit
  | |- emits _ (panic _) => apply emits_panic
  | |- emits _ block => apply emits_block
  | |- emits _ (match ?x with _ => _ end) => destruct x
  end.

Ltac emits_auto :=
  repeat first
    [ emits_step
    | progress unfold log_Fatalf, log_Printf, log_Println, fmt_Println,
        ticker_Reset, time_NewTicker, ticker_Stop, setConservationMode,
        inThresholdRange, deref ].

(** ** Shutdown *)










(** After a signal the final log line comes first and the stop second. *)
Example signal_logs_then_stops :
  (runDaemon W64 log_Fatalf None [Signal] (Some (Config 80)) initial).1 =
  [NewTicker Minute; LogLine "Batheart have been enabled";
   LogLine "Batheart has been shut down"; TickerStop].
Proof. reflexivity. Qed.

(** ** Absence of panics *)

Lemma wp_ret {A} (a : A) (Q : A -> state -> Prop) (s : state) :
  Q a s -> wp (mret a) Q s.
Proof. exact id. Qed.

Lemma wp_bind {A B} (m : M A) (f : A -> M B) (Q : B -> state -> Prop) (s : state) :
  wp m (fun a s' => wp (f a) Q s') s -> wp (m ≫= f) Q s.
Proof.
  unfold wp. unfold_M.
  destruct (m s) as [t [[a s'] | c | msg |]]; cbn; try exact id.
  now destruct (f a s').
Qed.

Lemma wp_emit (e : event) (Q : unit -> state -> Prop) (s : state) :
  Q tt s -> wp (emit e) Q s.
Proof. exact id. Qed.

Lemma wp_gets {A} (f : state -> A) (Q : A -> state -> Prop) (s : state) :
  Q (f s) s -> wp (gets f) Q s.
Proof. exact id. Qed.

Lemma wp_modify (f : state -> state) (Q : unit -> state -> Prop) (s : state) :
  Q tt (f s) -> wp (modify f) Q s.
Proof. exact id. Qed.

Lemma wp_exit {A} (c : Z) (Q : A -> state -> Prop) (s : state) : wp (exit c) Q s.
Proof. exact I. Qed.

Lemma wp_block {A} (Q : A -> state -> Prop) (s : state) : wp block Q s.
Proof. exact I. Qed.

Lemma wp_mono {A} (m : M A) (Q Q' : A -> state -> Prop) (s : state) :
  wp m Q s -> (forall a s', Q a s' -> Q' a s') -> wp m Q' s.
Proof.
  unfold wp. destruct (m s) as [t [[a s'] | c | msg |]]; cbn; auto.
Qed.

Lemma wp_withDeferred {A} (deferred : list (M unit)) (body : M A)
  (Q : A -> state -> Prop) (s : state) :
  wp body (fun a s' => wp (runDeferred deferred ;; mret a) Q s') s ->
  wp (withDeferred deferred body) Q s.
Proof.
  unfold wp, withDeferred.
  destruct (body s) as [t [[a s'] | c | msg |]]; cbn; try easy.
  now destruct ((runDeferred deferred ;; mret a) s').
Qed.

Ltac wp_step :=
  lazymatch goal with
  | |- wp (mret _) _ _ => apply wp_ret
  | |- wp (_ ≫= _) _ _ => apply wp_bind
  | |- wp (emit _) _ _ => apply wp_emit
  | |- wp (gets _) _ _ => apply wp_gets
  | |- wp (modify _) _ _ => apply wp_modify
  | |- wp (exit _) _ _ => apply wp_exit
  | |- wp block _ _ => apply wp_block
  | |- wp (match ?x with _ => _ end) _ _ => destruct x eqn:?
  end.

Ltac wp_auto :=
  repeat first
    [ wp_step
    | progress cbv beta
    | progress unfold log_Fatalf, log_Printf, log_Println, fmt_Println,
        ticker_Reset, time_NewTicker, ticker_Stop, setConservationMode,
        inThresholdRange, deref ].

Lemma tickBody_keeps_cfg (ws : wordsize) (inp : tickInput) (s : state) :
  has_cfg s -> wp (tickBody ws inp) (fun _ s' => has_cfg s') s.
Proof.
  intros Hs. destruct inp as [[c err] [charging cerr] werr].
  unfold tickBody, level, isCharging, writeErr.
  wp_auto; cbn in *; try assumption; try contradiction.
Qed.

(** [parseConfig] with the handler of the reload, which ignores the error
    of the load. *)
Lemma parseConfig_reload_non_nil (ws : wordsize) (load : result (gmap string value))
  (s : state) :
  wp (parseConfig ws log_Fatalf load (fun _ => mret true))
     (fun c _ => c <> None) s.
Proof.
  unfold parseConfig, k_Load, k_Unmarshal, logCfgIssue.
  wp_auto; cbn in *; congruence.
Qed.

(** [parseConfig] with the handler of the startup. *)
Lemma parseConfig_startup_non_nil (ws : wordsize) (load : result (gmap string value))
  (env : configEnv) (dirPath fullPath : string) (s : state) :
  wp (parseConfig ws log_Fatalf load
        (handleConfigError log_Fatalf env dirPath fullPath))
     (fun c _ => c <> None) s.
Proof.
  unfold parseConfig, handleConfigError, acquireConfig, createConfigDir,
    createConfigFile, loadDefaultConfig, k_Load, k_Unmarshal, logCfgIssue.
  wp_auto; cbn in *; congruence.
Qed.

Lemma watchCallback_keeps_cfg (ws : wordsize) (ev : watchEvent) (s : state) :
  has_cfg s -> wp (watchCallback ws log_Fatalf ev) (fun _ s' => has_cfg s') s.
Proof.
  intros Hs. unfold watchCallback.
  destruct (watchErr ev) as [e |]; [wp_auto; assumption |].
  wp_auto.
  eapply wp_mono; [apply parseConfig_reload_non_nil |].
  intros c s' Hc. wp_auto. exact Hc.
Qed.

Lemma daemonLoop_never_panics (ws : wordsize) (sched : list stimulus) (s : state) :
  has_cfg s -> wp (daemonLoop ws log_Fatalf sched) (fun _ _ => True) s.
Proof.
  revert s. induction sched as [| [| inp | ev] rest IH]; intros s Hs; cbn [daemonLoop].
  - apply wp_block.
  - now apply wp_ret.
  - apply wp_bind. eapply wp_mono; [now apply tickBody_keeps_cfg |].
    intros a s' Hs'. now apply IH.
  - apply wp_bind. eapply wp_mono; [now apply watchCallback_keeps_cfg |].
    intros a s' Hs'. now apply IH.
Qed.

Lemma runDaemon_never_panics (ws : wordsize) (watchRes : option error)
  (sched : list stimulus) (c : config) (s : state) :
  wp (runDaemon ws log_Fatalf watchRes sched (Some c)) (fun _ _ => True) s.
Proof.
  unfold runDaemon. destruct watchRes as [e |]; [now wp_auto |].
  wp_auto. apply wp_withDeferred. wp_auto.
  eapply wp_mono; [apply daemonLoop_never_panics; cbn; discriminate |].
  intros [] s' _. cbn [runDeferred]. now wp_auto.
Qed.

Lemma Execute_never_panics (ws : wordsize) (w : world) (s : state) :
  wp (Execute ws log_Fatalf w) (fun _ _ => True) s.
Proof.
  unfold Execute. apply wp_bind.
  destruct (userConfigDir w) as [dir | e]; [| unfold logCfgIssue; now wp_auto].
  wp_auto.
  eapply wp_mono; [apply parseConfig_startup_non_nil |].
  intros [c |] s' Hc; [| contradiction].
  wp_auto. apply runDaemon_never_panics.
Qed.

(** ** The configuration pointer *)

(** Were [log.Fatalf] to return, [parseConfig] could return nil at startup,
    and then the last thing it did was a call of [logCfgIssue]. *)
Lemma nil_config_follows_logCfgIssue (ws : wordsize)
  (load : result (gmap string value)) (env : configEnv)
  (dirPath fullPath : string) (s s' : state) (t : list event) :
  parseConfig ws Fatalf_returning load
    (handleConfigError Fatalf_returning env dirPath fullPath) s
  = (t, Ret (None, s')) ->
  exists (action : string) (e : error),
    last t = Some (LogLine (cfgIssueLine action e)).
Proof.
  unfold parseConfig, handleConfigError, acquireConfig, createConfigDir,
    createConfigFile, loadDefaultConfig, k_Load, k_Unmarshal, logCfgIssue,
    Fatalf_returning.
  destruct env as [mk marshal wr]. cbn [mkdirRes tomlMarshal writeRes].
  run_M.
  intros H. repeat (case_match; cbn in *; simplify_eq); eexists _, _; reflexivity.
Qed.

(** C10: at startup [parseConfig] never returns nil: whenever it returns
    under [handleConfigError], the pointer is not nil.  Every branch that
    would return nil comes after a call of [logCfgIssue], which does not
    return: with a logger that returned, a nil result would have that call
    as the last thing done.  From [Execute] on, whatever the world does, the
    process never panics, so the loop never dereferences a nil configuration
    in [inThresholdRange]. *)
Theorem config_pointer_never_nil (ws : wordsize)
  (load : result (gmap string value)) (env : configEnv)
  (dirPath fullPath : string) (s : state) :
  (forall (t : list event) (c : option config) (s' : state),
     parseConfig ws log_Fatalf load
       (handleConfigError log_Fatalf env dirPath fullPath) s
     = (t, Ret (c, s')) ->
     c <> None) /\
  (forall (t : list event) (s' : state),
     parseConfig ws Fatalf_returning load
       (handleConfigError Fatalf_returning env dirPath fullPath) s
     = (t, Ret (None, s')) ->
     exists (action : string) (e : error),
       last t = Some (LogLine (cfgIssueLine action e))) /\
  (forall (w : world) (msg : string),
     (Execute ws log_Fatalf w initial).2 <> Panic msg).
Proof.
  split; [| split].
  - intros t c s' Hrun.
    pose proof (parseConfig_startup_non_nil ws load env dirPath fullPath s) as H.
    unfold wp in H. now rewrite Hrun in H.
  - intros t s'. apply nil_config_follows_logCfgIssue.
  - intros w msg Hrun.
    pose proof (Execute_never_panics ws w initial) as H.
    unfold wp in H. now rewrite Hrun in H.
Qed.

Lemma config_pointer_never_nil_witness :
  Some (Config 80) <> None /\
  exists (action : string) (e : error),
    last [LogLine (cfgIssueLine "parse" (ErrOther "cannot decode into uint: abc"))]
    = Some (LogLine (cfgIssueLine action e)).
Proof.
  split.
  - apply (proj1 (config_pointer_never_nil W64
                    (Err (ErrNotExist "open config.toml: no such file or directory"))
                    (ConfigEnv None (fun _ => Ok "threshold = 80") None)
                    "/home/u/.config/batheart"
                    "/home/u/.config/batheart/config.toml" initial)
             [MkdirAll "/home/u/.config/batheart" None;
              WriteFile "/home/u/.config/batheart/config.toml" "threshold = 80" None]
             (Some (Config 80))
             (State ({[ "threshold" := VInt 80 ]} ∪ ∅) None 0 None)).
    vm_compute. reflexivity.
  - apply (proj1 (proj2 (config_pointer_never_nil W64
                    (Ok {[ "threshold" := VOther "abc" ]})
                    (ConfigEnv None (fun _ => Ok "threshold = 80") None)
                    "/home/u/.config/batheart"
                    "/home/u/.config/batheart/config.toml" initial))
             [LogLine (cfgIssueLine "parse" (ErrOther "cannot decode into uint: abc"))]
             (State ({[ "threshold" := VOther "abc" ]} ∪ ∅) None 0 None)).
    vm_compute. reflexivity.
Defined.

(** ** The scenarios of the specification *)

Example scenario_at_threshold :
  tickBody W64 (TickInput (80, None) (true, None) None)
    (State ∅ (Some (Config 80)) 0 (Some Minute))
  = ([TickerReset (1 * Second);
      WriteFile conserveSetPath "1" None;
      LogLine "Changed conservation mode to: 1"],
     Ret (tt, State ∅ (Some (Config 80)) 80 (Some (1 * Second)))).
Proof. reflexivity. Qed.

Example scenario_unchanged :
  tickBody W64 (TickInput (50, None) (true, None) None)
    (State ∅ (Some (Config 80)) 50 (Some Minute))
  = ([], Ret (tt, State ∅ (Some (Config 80)) 50 (Some Minute))).
Proof. reflexivity. Qed.

Example scenario_discharging :
  tickBody W64 (TickInput (60, None) (false, None) None)
    (State ∅ (Some (Config 80)) 59 (Some Minute))
  = ([WriteFile conserveSetPath "0" None;
      LogLine "Changed conservation mode to: 0";
      TickerReset (Minute * 5)],
     Ret (tt, State ∅ (Some (Config 80)) 60 (Some (Minute * 5)))).
Proof. reflexivity. Qed.

(** * Further properties of the daemon *)

(** ** The decoder's lookup *)

Lemma fieldValue_exact (field : string) (m : gmap string value) (v : value) :
  m !! field = Some v -> fieldValue field m = Some v.
Proof. intros H. unfold fieldValue. now rewrite H. Qed.

(** No value is found exactly when no key of the store equals the field's
    name up to case. *)
Lemma fieldValue_None (field : string) (m : gmap string value) :
  fieldValue field m = None <->
  forall (key : string) (v : value), m !! key = Some v -> EqualFold key field = false.
Proof.
  unfold fieldValue. split.
  - intros H key v Hkey.
    destruct (m !! field) as [v' |] eqn:Hfield; [discriminate |].
    destruct (EqualFold key field) eqn:Hfold; [| reflexivity].
    assert (Hin : In (key, v) (List.filter (fun kv => EqualFold kv.1 field) (map_to_list m))).
    { apply filter_In. split; [| exact Hfold].
      apply list_elem_of_In, elem_of_map_to_list, Hkey. }
    destruct (List.filter _ _); [destruct Hin | discriminate].
  - intros H. destruct (m !! field) as [v |] eqn:Hfield.
    + specialize (H field v Hfield).
      assert (Hrefl : forall t, EqualFold t t = true).
      { clear. induction t as [| c t IH]; [reflexivity |].
        cbn. now rewrite Ascii.eqb_refl. }
      now rewrite Hrefl in H.
    + destruct (List.filter _ _) as [| [key v] l] eqn:Hl; [reflexivity |].
      assert (Hin : In (key, v) (List.filter (fun kv => EqualFold kv.1 field) (map_to_list m)))
        by (rewrite Hl; now left).
      apply filter_In in Hin. destruct Hin as [Hin Hfold].
      apply list_elem_of_In, elem_of_map_to_list in Hin.
      cbn in Hfold. now rewrite (H key v Hin) in Hfold.
Qed.

(** ** Shapes of one round *)

Lemma tickBody_level_error (ws : wordsize) (c : Z) (e : error)
  (charging : bool * option error) (werr : option error) (s : state) :
  tickBody ws (TickInput (c, Some e) charging werr) s =
  ([LogLine ("Error reading battery capacity: " +:+ Error e)], Ret (tt, s)).
Proof. reflexivity. Qed.

Lemma tickBody_skipped (ws : wordsize) (c : Z)
  (charging : bool * option error) (werr : option error) (s : state) :
  uint ws c = prevCapacity s ->
  tickBody ws (TickInput (c, None) charging werr) s = ([], Ret (tt, s)).
Proof.
  intros Heq. apply Z.eqb_eq in Heq.
  unfold tickBody. run_M. now rewrite Heq.
Qed.

Lemma tickBody_nil (ws : wordsize) (c : Z) (charging : bool)
  (cerr werr : option error) (s : state) :
  uint ws c <> prevCapacity s -> cfg s = None ->
  tickBody ws (TickInput (c, None) (charging, cerr) werr) s =
  (chargingLog cerr, Panic "runtime error: invalid memory address or nil pointer dereference").
Proof.
  intros Hne Hcfg. apply Z.eqb_neq in Hne.
  unfold tickBody. run_M. rewrite Hne.
  destruct cerr; cbn; rewrite Hcfg; reflexivity.
Qed.

Lemma writes_app (t1 t2 : list event) :
  conservationWrites (t1 ++ t2) = conservationWrites t1 ++ conservationWrites t2.
Proof.
  induction t1 as [| e t1 IH]; [reflexivity |].
  destruct e; cbn; try exact IH.
  destruct (String.eqb path conserveSetPath); cbn; now rewrite IH.
Qed.

(** ** What one round writes *)

(** X1: what a round writes to the conservation file depends on the
    charging flag alone: a round that reads the capacity, finds it changed
    and has a configuration writes once, "1" if charging and "0" if not,
    whatever the threshold and the capacity; every other round writes
    nothing. *)
Theorem tick_writes_charging_flag (ws : wordsize) (inp : tickInput) (s : state) :
  conservationWrites (tickBody ws inp s).1 =
  match (level inp).2, cfg s with
  | None, Some _ =>
      if uint ws (level inp).1 =? prevCapacity s then []
      else [if (isCharging inp).1 then "1" else "0"]
  | _, _ => []
  end.
Proof.
  destruct inp as [[c [e |]] [charging cerr] werr]; cbn [level isCharging fst snd];
    [now destruct (cfg s) |].
  destruct (Z.eqb_spec (uint ws c) (prevCapacity s)) as [Heq | Hne].
  { rewrite tickBody_skipped by assumption. now destruct (cfg s). }
  destruct (cfg s) as [cf |] eqn:Hcfg.
  - rewrite (tickBody_polled ws c charging cerr werr s cf Hne Hcfg). cbv zeta.
    destruct ((uint ws c >? usub ws (Threshold cf) 1)
              && (uint ws c <? uadd ws (Threshold cf) 1));
      destruct charging; cbn [andb negb fst];
      rewrite writes_after_chargingLog; destruct werr; reflexivity.
  - rewrite tickBody_nil by assumption. now destruct cerr.
Qed.

(** X2: the ticker is reset to one second only in a round in which the
    capacity was read, had changed, equals the threshold, and the battery is
    charging; the threshold is then neither 0 nor the largest [uint]. *)
Theorem tick_fast_poll_only_at_threshold (ws : wordsize) (inp : tickInput)
  (s : state) (cf : config) :
  cfg s = Some cf -> isUint ws (Threshold cf) ->
  In (1 * Second) (tickerResets (tickBody ws inp s).1) ->
  (level inp).2 = None /\
  uint ws (level inp).1 <> prevCapacity s /\
  (isCharging inp).1 = true /\
  uint ws (level inp).1 = Threshold cf /\
  1 <= Threshold cf < maxUint ws.
Proof.
  intros Hcfg Ht.
  destruct inp as [[c [e |]] [charging cerr] werr]; cbn [level isCharging fst snd];
    [intros [] |].
  destruct (Z.eq_dec (uint ws c) (prevCapacity s)) as [Heq | Hne].
  { rewrite tickBody_skipped by assumption. intros []. }
  rewrite (tickBody_polled ws c charging cerr werr s cf Hne Hcfg). cbv zeta.
  destruct ((uint ws c >? usub ws (Threshold cf) 1)
            && (uint ws c <? uadd ws (Threshold cf) 1)) eqn:Hband;
    destruct charging; cbn [andb negb fst];
    rewrite resets_after_chargingLog.
  - intros _. apply band_true_iff in Hband; [| apply wrap_isUint | exact Ht].
    destruct Hband as [Heq Hrange]. repeat split; try assumption; lia.
  - rewrite resets_of_switchTrace. cbn. intros [H | []]. discriminate.
  - destruct werr; cbn; intros [H | []]; discriminate.
  - rewrite resets_of_switchTrace. cbn. intros [H | []]. discriminate.
Qed.

Lemma tick_fast_poll_only_at_threshold_witness :
  (level (TickInput (80, None) (true, None) None)).2 = None /\
  uint W64 (level (TickInput (80, None) (true, None) None)).1
    <> prevCapacity (State ∅ (Some (Config 80)) 79 (Some Minute)) /\
  (isCharging (TickInput (80, None) (true, None) None)).1 = true /\
  uint W64 (level (TickInput (80, None) (true, None) None)).1 = Threshold (Config 80) /\
  1 <= Threshold (Config 80) < maxUint W64.
Proof.
  apply (tick_fast_poll_only_at_threshold W64 (TickInput (80, None) (true, None) None)
           (State ∅ (Some (Config 80)) 79 (Some Minute)) (Config 80)).
  - reflexivity.
  - cbn [Threshold]. uint_range.
  - vm_compute. left. reflexivity.
Defined.

(** ** What one round does to the state *)

(** The state a round returns with. *)
Lemma tickBody_returns (ws : wordsize) (inp : tickInput) (s s' : state)
  (t : list event) :
  tickBody ws inp s = (t, Ret (tt, s')) ->
  match (level inp).2 with
  | Some _ => s' = s
  | None =>
      s' = s \/
      exists period : Z, s' = set_ticker (Some period)
                                (set_prevCapacity (uint ws (level inp).1) s)
  end /\
  ((level inp).2 = None -> prevCapacity s' = uint ws (level inp).1).
Proof.
  destruct inp as [[c [e |]] [charging cerr] werr]; cbn [level isCharging fst snd].
  { rewrite tickBody_level_error. intros [= _ <-]. split; [reflexivity | discriminate]. }
  destruct (Z.eq_dec (uint ws c) (prevCapacity s)) as [Heq | Hne].
  { rewrite tickBody_skipped by assumption. intros [= _ <-].
    split; [now left | now intros _]. }
  destruct (cfg s) as [cf |] eqn:Hcfg.
  - rewrite (tickBody_polled ws c charging cerr werr s cf Hne Hcfg). cbv zeta.
    destruct ((uint ws c >? usub ws (Threshold cf) 1)
              && (uint ws c <? uadd ws (Threshold cf) 1));
      destruct charging; cbn [andb negb];
      intros [= _ <-]; (split; [right; eexists; reflexivity | intros _; reflexivity]).
  - rewrite tickBody_nil by assumption. discriminate.
Qed.

(** X3: a round that returns leaves the configuration and the koanf store
    as they were; if the capacity was read, [prevCapacity] is that capacity
    afterwards, also when the charging status could not be read or the write
    failed; if it could not be read, nothing changes at all. *)
Theorem tick_state_effect (ws : wordsize) (inp : tickInput) (s s' : state)
  (t : list event) :
  tickBody ws inp s = (t, Ret (tt, s')) ->
  k s' = k s /\ cfg s' = cfg s /\
  match (level inp).2 with
  | None => prevCapacity s' = uint ws (level inp).1
  | Some _ => s' = s
  end.
Proof.
  intros Hrun. destruct (tickBody_returns ws inp s s' t Hrun) as [Hs Hprev].
  destruct ((level inp).2) as [e |].
  - subst s'. auto.
  - specialize (Hprev eq_refl).
    destruct Hs as [-> | [period ->]]; auto.
Qed.

Lemma tick_state_effect_witness :
  k (State ∅ (Some (Config 80)) 60 (Some (Minute * 5))) = k (State ∅ (Some (Config 80)) 59 (Some Minute)) /\
  cfg (State ∅ (Some (Config 80)) 60 (Some (Minute * 5))) = cfg (State ∅ (Some (Config 80)) 59 (Some Minute)) /\
  prevCapacity (State ∅ (Some (Config 80)) 60 (Some (Minute * 5))) = uint W64 60.
Proof.
  apply (tick_state_effect W64
           (TickInput (60, None) (false, Some (ErrOther "no battery")) (Some (ErrOther "permission denied")))
           (State ∅ (Some (Config 80)) 59 (Some Minute))
           (State ∅ (Some (Config 80)) 60 (Some (Minute * 5)))
           [LogLine "Error checking battery charging status: no battery";
            WriteFile conserveSetPath "0" (Some (ErrOther "permission denied"));
            LogLine "can't change conservation mode: permission denied";
            TickerReset (Minute * 5)]).
  reflexivity.
Defined.

Lemma bind_stops {A B} (m : M A) (f g : A -> M B) (s : state) :
  (forall a s', (m s).2 <> Ret (a, s')) -> (m ≫= f) s = (m ≫= g) s.
Proof.
  intros Hm. unfold_M. destruct (m s) as [t [[a s'] | c | msg |]]; try reflexivity.
  now destruct (Hm a s').
Qed.


(** X4: a round that reads the same capacity as the round before it is
    absorbed: the loop behaves as if it had not happened, whatever the first
    round did.  In particular a failed write is not tried again while the
    capacity stays the same. *)
Theorem same_level_tick_is_absorbed (ws : wordsize) (Fatalf : string -> M unit)
  (c : Z) (charging1 charging2 : bool * option error) (werr1 werr2 : option error)
  (rest : list stimulus) (s : state) :
  daemonLoop ws Fatalf
    (Tick (TickInput (c, None) charging1 werr1)
       :: Tick (TickInput (c, None) charging2 werr2) :: rest) s
  = daemonLoop ws Fatalf (Tick (TickInput (c, None) charging1 werr1) :: rest) s.
Proof.
  cbn [daemonLoop].
  destruct (tickBody ws (TickInput (c, None) charging1 werr1) s)
    as [t1 [[[] s1] | code | msg |]] eqn:Hrun.
  - destruct (tickBody_returns _ _ _ _ _ Hrun) as [_ Hprev].
    specialize (Hprev eq_refl). cbn [level fst] in Hprev.
    rewrite !(run_bind _ _ s s1 t1 tt Hrun).
    rewrite (run_bind _ _ s1 s1 [] tt
               (tickBody_skipped ws c charging2 werr2 s1 (eq_sym Hprev))).
    reflexivity.
  - apply bind_stops. intros a s'. rewrite Hrun. discriminate.
  - apply bind_stops. intros a s'. rewrite Hrun. discriminate.
  - apply bind_stops. intros a s'. rewrite Hrun. discriminate.
Qed.

(** X5: an error of [battery.IsCharging] does not end the round: the round
    goes on with the flag that came with the error, and differs from the
    round without the error by one logged line at most. *)
Theorem charging_error_only_logs (ws : wordsize) (lvl : Z * option error)
  (charging : bool) (e : error) (werr : option error) (s : state) :
  let quiet := tickBody ws (TickInput lvl (charging, None) werr) s in
  let noisy := tickBody ws (TickInput lvl (charging, Some e) werr) s in
  noisy.2 = quiet.2 /\
  (noisy.1 = quiet.1 \/
   noisy.1 = LogLine ("Error checking battery charging status: " +:+ Error e)
               :: quiet.1).
Proof.
  cbv zeta. destruct lvl as [c [le |]]; [split; [| left]; reflexivity |].
  destruct (Z.eq_dec (uint ws c) (prevCapacity s)) as [Heq | Hne].
  { rewrite !tickBody_skipped by assumption. split; [| left]; reflexivity. }
  destruct (cfg s) as [cf |] eqn:Hcfg.
  - rewrite !(tickBody_polled ws c charging _ werr s cf Hne Hcfg). cbv zeta.
    destruct ((uint ws c >? usub ws (Threshold cf) 1)
              && (uint ws c <? uadd ws (Threshold cf) 1));
      destruct charging; cbn [andb negb]; (split; [| right]; reflexivity).
  - rewrite !tickBody_nil by assumption. split; [| right]; reflexivity.
Qed.

(** X6: a failed write to the conservation file is logged and changes
    nothing else: the round ends the same way, in the same state, with the
    same write attempted and the same reset of the ticker as when the write
    succeeds. *)
Theorem write_failure_only_logs (ws : wordsize) (lvl : Z * option error)
  (charging : bool * option error) (e : error) (s : state) :
  let fine := tickBody ws (TickInput lvl charging None) s in
  let failed := tickBody ws (TickInput lvl charging (Some e)) s in
  failed.2 = fine.2 /\
  conservationWrites failed.1 = conservationWrites fine.1 /\
  tickerResets failed.1 = tickerResets fine.1 /\
  length failed.1 = length fine.1.
Proof.
  cbv zeta. destruct lvl as [c [le |]]; [repeat split |].
  destruct charging as [charging cerr].
  destruct (Z.eq_dec (uint ws c) (prevCapacity s)) as [Heq | Hne].
  { rewrite !tickBody_skipped by assumption. repeat split. }
  destruct (cfg s) as [cf |] eqn:Hcfg.
  - rewrite !(tickBody_polled ws c charging cerr _ s cf Hne Hcfg). cbv zeta.
    destruct ((uint ws c >? usub ws (Threshold cf) 1)
              && (uint ws c <? uadd ws (Threshold cf) 1));
      destruct charging, cerr; cbn [andb negb]; repeat split.
  - rewrite !tickBody_nil by assumption. repeat split.
Qed.

(** ** Runs as a whole *)

Lemma traced_ret {A} (P : event -> Prop) (a : A) (Q : A -> state -> Prop) (s : state) :
  Q a s -> traced P (mret a) Q s.
Proof. intros HQ. split; [constructor | exact HQ]. Qed.

Lemma traced_bind {A B} (P : event -> Prop) (m : M A) (f : A -> M B)
  (Q : B -> state -> Prop) (s : state) :
  traced P m (fun a s' => traced P (f a) Q s') s -> traced P (m ≫= f) Q s.
Proof.
  unfold traced. unfold_M.
  destruct (m s) as [t [[a s'] | c | msg |]]; cbn; try (intros [Ht H]; now split).
  intros [Ht [Ht' H]]. destruct (f a s') as [t' r]. cbn in *.
  split; [now apply Forall_app | exact H].
Qed.

Lemma traced_emit (P : event -> Prop) (e : event) (Q : unit -> state -> Prop)
  (s : state) :
  P e -> Q tt s -> traced P (emit e) Q s.
Proof. intros He HQ. split; [now repeat constructor | exact HQ]. Qed.

Lemma traced_gets {A} (P : event -> Prop) (f : state -> A)
  (Q : A -> state -> Prop) (s : state) :
  Q (f s) s -> traced P (gets f) Q s.
Proof. intros HQ. split; [constructor | exact HQ]. Qed.

Lemma traced_modify (P : event -> Prop) (f : state -> state)
  (Q : unit -> state -> Prop) (s : state) :
  Q tt (f s) -> traced P (modify f) Q s.
Proof. intros HQ. split; [constructor | exact HQ]. Qed.

Lemma traced_exit {A} (P : event -> Prop) (Q : A -> state -> Prop) (s : state) :
  traced P (exit 1) Q s.
Proof. split; [constructor | reflexivity]. Qed.

Lemma traced_mono {A} (P : event -> Prop) (m : M A) (Q Q' : A -> state -> Prop)
  (s : state) :
  traced P m Q s -> (forall a s', Q a s' -> Q' a s') -> traced P m Q' s.
Proof.
  unfold traced. intros [Ht H] HQ. split; [exact Ht |].
  destruct (m s) as [t [[a s'] | c | msg |]]; cbn in *; auto.
Qed.

(** A computation that emits only [P] and never exits is traced. *)
Lemma traced_of_emits {A} (P : event -> Prop) (m : M A) (s : state) :
  emits P m -> (forall c, (m s).2 <> Exit c) -> traced P m (fun _ _ => True) s.
Proof.
  intros Hm Hexit. split; [apply Hm |].
  destruct ((m s).2) as [[a s'] | c | msg |] eqn:H; try exact I.
  now destruct (Hexit c).
Qed.

Ltac traced_step :=
  lazymatch goal with
  | |- traced _ (mret _) _ _ => apply traced_ret
  | |- traced _ (_ ≫= _) _ _ => apply traced_bind
  | |- traced _ (emit _) _ _ => apply traced_emit
  | |- traced _ (gets _) _ _ => apply traced_gets
  | |- traced _ (modify _) _ _ => apply traced_modify
  | |- traced _ (exit 1) _ _ => apply traced_exit
  | |- traced _ (match ?x with _ => _ end) _ _ => destruct x eqn:?
  end.

Ltac traced_auto :=
  repeat first
    [ traced_step
    | progress cbv beta
    | progress unfold log_Fatalf, log_Printf, log_Println, fmt_Println,
        ticker_Reset, time_NewTicker, ticker_Stop, setConservationMode ].

Lemma emits_withDeferred {A} (P : event -> Prop) (deferred : list (M unit))
  (body : M A) :
  emits P body -> Forall (emits P) deferred -> emits P (withDeferred deferred body).
Proof.
  intros Hbody Hdef s. specialize (Hbody s). unfold withDeferred.
  assert (Hrun : emits P (runDeferred deferred)).
  { induction Hdef as [| call rest Hcall _ IH]; cbn [runDeferred].
    - apply emits_ret.
    - apply emits_bind; [exact Hcall | intros _; exact IH]. }
  destruct (body s) as [t [[a s'] | c | msg |]]; cbn in *; try assumption.
  - pose proof (emits_bind P _ (fun _ => mret a) Hrun (fun _ => emits_ret P a) s') as H.
    destruct ((runDeferred deferred ≫= (fun _ => mret a)) s') as [t' r].
    apply Forall_app. now split.
  - pose proof (emits_bind P _ (fun _ => panic msg : M A) Hrun
                  (fun _ => emits_panic P msg) s) as H.
    destruct ((runDeferred deferred ≫= (fun _ => panic msg : M A)) s) as [t' r].
    apply Forall_app. now split.
Qed.

Lemma tickBody_daemonEvent (ws : wordsize) (inp : tickInput) :
  emits daemonEvent (tickBody ws inp).
Proof.
  destruct inp as [[c err] [charging cerr] werr].
  unfold tickBody, level, isCharging, writeErr. emits_auto;
    cbn; auto.
Qed.

Lemma watchCallback_only_logs (ws : wordsize) (ev : watchEvent) :
  emits isLogLine (watchCallback ws log_Fatalf ev).
Proof.
  unfold watchCallback, parseConfig, k_Load, k_Unmarshal, logCfgIssue.
  emits_auto; exact I.
Qed.

Lemma isLogLine_daemonEvent (e : event) : isLogLine e -> daemonEvent e.
Proof. now destruct e. Qed.

Lemma emits_impl {A} (P P' : event -> Prop) (m : M A) :
  (forall e, P e -> P' e) -> emits P m -> emits P' m.
Proof. intros HP Hm s. eapply Forall_impl; [apply Hm | exact HP]. Qed.

Lemma daemonLoop_daemonEvent (ws : wordsize) (sched : list stimulus) :
  emits daemonEvent (daemonLoop ws log_Fatalf sched).
Proof.
  induction sched as [| [| inp | ev] rest IH]; cbn [daemonLoop].
  - apply emits_block.
  - apply emits_ret.
  - apply emits_bind; [apply tickBody_daemonEvent | intros _; exact IH].
  - apply emits_bind; [| intros _; exact IH].
    eapply emits_impl; [apply isLogLine_daemonEvent | apply watchCallback_only_logs].
Qed.

Lemma runDaemon_daemonEvent (ws : wordsize) (watchRes : option error)
  (sched : list stimulus) (cfg0 : option config) :
  emits daemonEvent (runDaemon ws log_Fatalf watchRes sched cfg0).
Proof.
  unfold runDaemon. destruct watchRes as [e |]; [emits_auto; exact I |].
  apply emits_bind; [apply emits_modify | intros _].
  apply emits_bind; [emits_auto; reflexivity | intros _].
  apply emits_withDeferred.
  - apply emits_bind; [apply emits_modify | intros _].
    apply emits_bind; [emits_auto; exact I | intros _].
    apply daemonLoop_daemonEvent.
  - repeat constructor; emits_auto; exact I.
Qed.

(** X7: whatever the battery, the file system, the watcher and the signals
    do, the running daemon writes only "0" or "1" and only to the
    conservation file, gives the ticker only the periods one second, one
    minute and five minutes, and apart from that only logs: it creates no
    directory, writes no other file and prints nothing. *)
Theorem daemon_effects_are_confined (ws : wordsize) (watchRes : option error)
  (sched : list stimulus) (cfg0 : option config) (s : state) :
  Forall daemonEvent (runDaemon ws log_Fatalf watchRes sched cfg0 s).1.
Proof. apply runDaemon_daemonEvent. Qed.



Lemma daemonLoop_exit_status (ws : wordsize) (sched : list stimulus) (s : state) :
  traced (fun _ => True) (daemonLoop ws log_Fatalf sched) (fun _ _ => True) s.
Proof.
  revert s. induction sched as [| [| inp | ev] rest IH]; intros s; cbn [daemonLoop].
  - split; [constructor | exact I].
  - now apply traced_ret.
  - apply traced_bind. eapply traced_mono.
    + apply traced_of_emits.
      * intros s'. apply Forall_forall. now intros.
      * intros c Hc.
        destruct (tickBody ws inp s) as [t [[[] s'] | c' | msg |]] eqn:Hrun;
          try discriminate.
        destruct inp as [[lc [le |]] [charging cerr] werr].
        { rewrite tickBody_level_error in Hrun. discriminate. }
        destruct (Z.eq_dec (uint ws lc) (prevCapacity s)) as [Heq | Hne].
        { rewrite tickBody_skipped in Hrun by assumption. discriminate. }
        destruct (cfg s) as [cf |] eqn:Hcfg.
        { rewrite (tickBody_polled ws lc charging cerr werr s cf Hne Hcfg) in Hrun.
          cbv zeta in Hrun.
          destruct ((uint ws lc >? usub ws (Threshold cf) 1)
                    && (uint ws lc <? uadd ws (Threshold cf) 1));
            destruct charging; discriminate. }
        rewrite tickBody_nil in Hrun by assumption. discriminate.
    + intros a s' _. apply IH.
  - apply traced_bind. eapply traced_mono with (Q := fun _ _ => True).
    + unfold watchCallback, parseConfig, k_Load, k_Unmarshal, logCfgIssue.
      traced_auto; exact I.
    + intros a s' _. apply IH.
Qed.



Lemma runDaemon_exit_status (ws : wordsize) (watchRes : option error)
  (sched : list stimulus) (cfg0 : option config) (s : state)
  (t : list event) (c : Z) :
  runDaemon ws log_Fatalf watchRes sched cfg0 s = (t, Exit c) -> c = 1.
Proof.
  unfold runDaemon. destruct watchRes as [e |]; [run_M; discriminate |].
  pose proof (daemonLoop_exit_status ws sched) as Hexit.
  remember (daemonLoop ws log_Fatalf sched) as loop eqn:Eloop. clear Eloop.
  unfold withDeferred, runDeferred. run_M.
  match goal with
  | |- context [loop ?s0] =>
      specialize (Hexit s0); destruct Hexit as [_ Hexit];
      destruct (loop s0) as [tl [[[] sl] | c' | msg |]]
  end; cbn in *; intros [= _ <-].
  exact Hexit.
Qed.

Lemma daemonEvent_notStdout (e : event) : daemonEvent e -> notStdout e.
Proof. now destruct e. Qed.

Lemma runDaemon_traced (ws : wordsize) (watchRes : option error)
  (sched : list stimulus) (cfg0 : option config) (s : state) :
  traced notStdout (runDaemon ws log_Fatalf watchRes sched cfg0) (fun _ _ => True) s.
Proof.
  split.
  - eapply Forall_impl; [apply runDaemon_daemonEvent | apply daemonEvent_notStdout].
  - destruct (runDaemon ws log_Fatalf watchRes sched cfg0 s) as [t [[a s'] | c | msg |]] eqn:Hrun;
      cbn; try exact I.
    eapply runDaemon_exit_status. exact Hrun.
Qed.

Lemma parseConfig_startup_traced (ws : wordsize) (load : result (gmap string value))
  (env : configEnv) (dirPath fullPath : string) (s : state) :
  traced notStdout
    (parseConfig ws log_Fatalf load (handleConfigError log_Fatalf env dirPath fullPath))
    (fun c _ => c <> None) s.
Proof.
  unfold parseConfig, handleConfigError, acquireConfig, createConfigDir,
    createConfigFile, loadDefaultConfig, k_Load, k_Unmarshal, logCfgIssue.
  traced_auto; cbn in *; try exact I; congruence.
Qed.

(** X10: at startup nothing is ever printed: the line "Using default
    config" of [Execute] cannot be reached, because [parseConfig] has exited
    wherever it would have returned nil.  And whenever a run of [Execute]
    ends by the process exiting, the status is 1. *)
Theorem Execute_prints_nothing (ws : wordsize) (w : world) :
  Forall notStdout (Execute ws log_Fatalf w initial).1 /\
  forall c : Z, (Execute ws log_Fatalf w initial).2 = Exit c -> c = 1.
Proof.
  assert (H : traced notStdout (Execute ws log_Fatalf w) (fun _ _ => True) initial).
  { unfold Execute. apply traced_bind.
    eapply traced_mono with (Q := fun _ _ => True).
    - destruct (userConfigDir w) as [dir | e]; unfold logCfgIssue; traced_auto; exact I.
    - intros configHome s _. apply traced_bind.
      eapply traced_mono; [apply parseConfig_startup_traced |].
      intros [c |] s' Hc; [| contradiction].
      cbv beta. apply traced_bind. apply traced_ret. apply runDaemon_traced. }
  destruct H as [Ht Hr]. split; [exact Ht |].
  intros c Hc. now rewrite Hc in Hr.
Qed.

(** X11: a change of the configuration does not poll: whatever the reload
    gives, the callback only logs, writes nothing and leaves the ticker and
    [prevCapacity] as they were. *)
Theorem reload_leaves_polling_alone (ws : wordsize) (ev : watchEvent) (s : state) :
  Forall isLogLine (watchCallback ws log_Fatalf ev s).1 /\
  forall (t : list event) (s' : state),
    watchCallback ws log_Fatalf ev s = (t, Ret (tt, s')) ->
    prevCapacity s' = prevCapacity s /\ ticker s' = ticker s.
Proof.
  assert (H : traced isLogLine (watchCallback ws log_Fatalf ev)
                (fun _ s' => prevCapacity s' = prevCapacity s /\ ticker s' = ticker s) s).
  { unfold watchCallback, parseConfig, k_Load, k_Unmarshal, logCfgIssue.
    traced_auto; cbn; auto. }
  destruct H as [Ht Hr]. split; [exact Ht |].
  intros t s' Hrun. now rewrite Hrun in Hr.
Qed.

(** X12: an error that the watcher reports is logged and changes nothing:
    the file is not read again, and the loop goes on from the same state
    with the same configuration. *)
Theorem watch_error_keeps_config (ws : wordsize) (Fatalf : string -> M unit)
  (e : error) (file : result (gmap string value)) (rest : list stimulus)
  (s : state) :
  daemonLoop ws Fatalf (ConfigChanged (WatchEvent (Some e) file) :: rest) s =
  (LogLine ("Error in config Watch: " +:+ Error e) :: (daemonLoop ws Fatalf rest s).1,
   (daemonLoop ws Fatalf rest s).2).
Proof.
  cbn [daemonLoop].
  now rewrite (run_bind _ _ s s [LogLine ("Error in config Watch: " +:+ Error e)] tt).
Qed.

Lemma bind_trace_stops {A B} (m : M A) (f : A -> M B) (s : state) :
  (forall a s', (m s).2 <> Ret (a, s')) -> ((m ≫= f) s).1 = (m s).1.
Proof.
  intros Hm. unfold_M. destruct (m s) as [t [[a s'] | c | msg |]]; try reflexivity.
  now destruct (Hm a s').
Qed.

Lemma writes_of_logs (t : list event) :
  Forall isLogLine t -> conservationWrites t = [].
Proof.
  induction 1 as [| e t He _ IH]; [reflexivity |].
  destruct e; try contradiction. exact IH.
Qed.

Lemma tickBody_writes_at_most_once (ws : wordsize) (inp : tickInput) (s : state) :
  (length (conservationWrites (tickBody ws inp s).1) <= 1)%nat.
Proof.
  destruct inp as [[c [e |]] [charging cerr] werr]; [cbn; lia |].
  destruct (Z.eq_dec (uint ws c) (prevCapacity s)) as [Heq | Hne].
  { rewrite tickBody_skipped by assumption. cbn. lia. }
  destruct (cfg s) as [cf |] eqn:Hcfg.
  - rewrite (tickBody_polled ws c charging cerr werr s cf Hne Hcfg). cbv zeta.
    destruct ((uint ws c >? usub ws (Threshold cf) 1)
              && (uint ws c <? uadd ws (Threshold cf) 1));
      destruct charging; cbn [andb negb fst];
      rewrite writes_after_chargingLog; destruct werr; cbn; lia.
  - rewrite tickBody_nil by assumption. destruct cerr; cbn; lia.
Qed.

Lemma daemonLoop_writes_bounded (ws : wordsize) (sched : list stimulus) (s : state) :
  (length (conservationWrites (daemonLoop ws log_Fatalf sched s).1)
   <= tickCount sched)%nat.
Proof.
  revert s. induction sched as [| [| inp | ev] rest IH]; intros s;
    cbn [daemonLoop tickCount].
  - cbn. lia.
  - cbn. lia.
  - pose proof (tickBody_writes_at_most_once ws inp s) as Hone.
    destruct (tickBody ws inp s) as [t1 [[[] s1] | c | msg |]] eqn:Hrun.
    + rewrite (run_bind _ _ s s1 t1 tt Hrun). cbn [fst].
      rewrite writes_app, length_app. specialize (IH s1). cbn [fst] in Hone. lia.
    + rewrite bind_trace_stops by (intros a s'; rewrite Hrun; discriminate).
      rewrite Hrun. cbn [fst] in *. lia.
    + rewrite bind_trace_stops by (intros a s'; rewrite Hrun; discriminate).
      rewrite Hrun. cbn [fst] in *. lia.
    + rewrite bind_trace_stops by (intros a s'; rewrite Hrun; discriminate).
      rewrite Hrun. cbn [fst] in *. lia.
  - pose proof (watchCallback_only_logs ws ev s) as Hlogs.
    apply writes_of_logs in Hlogs.
    destruct (watchCallback ws log_Fatalf ev s) as [t1 [[[] s1] | c | msg |]] eqn:Hrun.
    + rewrite (run_bind _ _ s s1 t1 tt Hrun). cbn [fst] in *.
      rewrite writes_app, Hlogs. apply IH.
    + rewrite bind_trace_stops by (intros a s'; rewrite Hrun; discriminate).
      rewrite Hrun. cbn [fst] in *. rewrite Hlogs. cbn. lia.
    + rewrite bind_trace_stops by (intros a s'; rewrite Hrun; discriminate).
      rewrite Hrun. cbn [fst] in *. rewrite Hlogs. cbn. lia.
    + rewrite bind_trace_stops by (intros a s'; rewrite Hrun; discriminate).
      rewrite Hrun. cbn [fst] in *. rewrite Hlogs. cbn. lia.
Qed.

(** X13: the daemon writes to the conservation file at most once for each
    expiry of the ticker: signals, reloads, the startup and the shutdown of
    the daemon write nothing there. *)
Theorem one_write_per_tick_at_most (ws : wordsize) (watchRes : option error)
  (sched : list stimulus) (cfg0 : option config) (s : state) :
  (length (conservationWrites (runDaemon ws log_Fatalf watchRes sched cfg0 s).1)
   <= tickCount sched)%nat.
Proof.
  unfold runDaemon. destruct watchRes as [e |]; [run_M; lia |].
  pose proof (daemonLoop_writes_bounded ws sched) as Hloop.
  remember (daemonLoop ws log_Fatalf sched) as loop eqn:Eloop. clear Eloop.
  unfold withDeferred, runDeferred. run_M.
  match goal with
  | |- context [loop ?s0] =>
      specialize (Hloop s0); destruct (loop s0) as [tl [[[] sl] | c' | msg |]]
  end; cbn in *; try exact Hloop;
    rewrite writes_app, length_app; cbn; lia.
Qed.

(** ** The configuration at startup *)

Lemma bind_ret_l {A B} (a : A) (f : A -> M B) (s : state) :
  (mret a ≫= f) s = f a s.
Proof. unfold_M. now destruct (f a s). Qed.

Lemma wrap_80 (ws : wordsize) : wrap ws 80 = 80.
Proof. destruct ws; reflexivity. Qed.

Lemma parseConfig_missing_file (ws : wordsize) (Fatalf : string -> M unit)
  (e : error) (env : configEnv) (dirPath fullPath data : string) (s : state) :
  isNotExist e = true ->
  mkdirRes env = None ->
  tomlMarshal env ({[ "threshold" := VInt 80 ]} ∪ k s) = Ok data ->
  writeRes env = None ->
  parseConfig ws Fatalf (Err e) (handleConfigError Fatalf env dirPath fullPath) s
  = ([MkdirAll dirPath None; WriteFile fullPath data None],
     Ret (Some (Config 80), set_k ({[ "threshold" := VInt 80 ]} ∪ k s) s)).
Proof.
  intros Hne Hmk Hmarshal Hwr.
  unfold parseConfig, handleConfigError, acquireConfig, createConfigDir,
    createConfigFile, loadDefaultConfig, k_Load, k_Unmarshal.
  run_M. rewrite Hne. cbn. rewrite Hmk. cbn. rewrite Hmarshal. cbn.
  rewrite Hwr. cbn.
  rewrite (fieldValue_exact _ _ (VInt 80))
    by (apply lookup_union_Some_l, lookup_singleton_eq).
  cbn. now rewrite wrap_80.
Qed.

Lemma parseConfig_file (ws : wordsize) (Fatalf : string -> M unit)
  (m : gmap string value) (env : configEnv) (dirPath fullPath : string) (s : state) :
  parseConfig ws Fatalf (Ok m) (handleConfigError Fatalf env dirPath fullPath) s
  = match fieldValue "threshold" (m ∪ k s) with
    | None => ([], Ret (Some (Config 0), set_k (m ∪ k s) s))
    | Some (VInt n) => ([], Ret (Some (Config (wrap ws n)), set_k (m ∪ k s) s))
    | Some (VOther repr) =>
        let e := ErrOther ("cannot decode into uint: " +:+ repr) in
        let (t, r) := Fatalf (cfgIssueLine "parse" e) (set_k (m ∪ k s) s) in
        (t, match r with
            | Ret (_, s') => Ret (None, s')
            | Exit c => Exit c
            | Panic msg => Panic msg
            | Blocked => Blocked
            end)
    end.
Proof.
  unfold parseConfig, handleConfigError, k_Load, k_Unmarshal, logCfgIssue.
  run_M. destruct (fieldValue "threshold" (m ∪ k s)) as [[n | repr] |]; cbn;
    try reflexivity.
  destruct (Fatalf _ _) as [t [[[] s'] | c | msg |]]; cbn; try reflexivity.
  now rewrite app_nil_r.
Qed.

(** X14: when the configuration file does not exist at startup, the default
    threshold of 80 is loaded, the directory is created and then the file is
    written with the marshalled defaults, and the daemon runs with a
    threshold of 80. *)
Theorem missing_config_file_gets_default (ws : wordsize) (Fatalf : string -> M unit)
  (w : world) (home data : string) (e : error) :
  userConfigDir w = Ok home ->
  startupLoad w = Err e -> isNotExist e = true ->
  mkdirRes (env w) = None ->
  tomlMarshal (env w) {[ "threshold" := VInt 80 ]} = Ok data ->
  writeRes (env w) = None ->
  let dirPath := filepath_Join w home "batheart" in
  let fullPath := filepath_Join w dirPath "config.toml" in
  let daemon :=
    runDaemon ws Fatalf (watchRes w) (schedule w) (Some (Config 80))
      (State {[ "threshold" := VInt 80 ]} None 0 None) in
  Execute ws Fatalf w initial
  = (MkdirAll dirPath None :: WriteFile fullPath data None :: daemon.1, daemon.2).
Proof.
  intros Hhome Hload Hne Hmk Hmarshal Hwr. cbv zeta.
  unfold Execute. rewrite Hhome, Hload, bind_ret_l.
  assert (Hk : {[ "threshold" := VInt 80 ]} ∪ k initial
               = ({[ "threshold" := VInt 80 ]} : gmap string value)).
  { apply (right_id_L ∅ (∪)). }
  erewrite run_bind;
    [| apply (parseConfig_missing_file ws Fatalf e (env w) _ _ data initial);
       try assumption; now rewrite Hk].
  cbv beta iota. rewrite bind_ret_l. unfold set_k. cbn [cfg prevCapacity ticker initial].
  rewrite Hk. reflexivity.
Qed.

Lemma missing_config_file_gets_default_witness :
  Execute W64 log_Fatalf
    (World (Ok "/home/u/.config") (fun a b => a +:+ "/" +:+ b) (Err (ErrNotExist "no such file or directory"))
       (ConfigEnv None (fun _ => Ok "threshold = 80") None) None [Signal])
    initial
  = ([MkdirAll "/home/u/.config/batheart" None;
      WriteFile "/home/u/.config/batheart/config.toml" "threshold = 80" None;
      NewTicker Minute; LogLine "Batheart have been enabled";
      LogLine "Batheart has been shut down"; TickerStop],
     Ret (tt, State {[ "threshold" := VInt 80 ]} (Some (Config 80)) 0 (Some Minute))).
Proof.
  apply (missing_config_file_gets_default W64 log_Fatalf
           (World (Ok "/home/u/.config") (fun a b => a +:+ "/" +:+ b) (Err (ErrNotExist "no such file or directory"))
              (ConfigEnv None (fun _ => Ok "threshold = 80") None) None [Signal])
           "/home/u/.config" "threshold = 80" (ErrNotExist "no such file or directory"));
    reflexivity.
Defined.

(** X15: when the configuration file exists but cannot be loaded, the
    process logs the issue and exits with status 1: nothing is created or
    written, and the daemon is not started. *)
Theorem unreadable_config_file_is_fatal (ws : wordsize) (w : world)
  (home : string) (e : error) :
  userConfigDir w = Ok home ->
  startupLoad w = Err e -> isNotExist e = false ->
  Execute ws log_Fatalf w initial = ([LogLine (cfgIssueLine "load" e)], Exit 1).
Proof.
  intros Hhome Hload Hne.
  unfold Execute, parseConfig, handleConfigError, k_Load, logCfgIssue.
  rewrite Hhome, Hload. run_M. rewrite Hne. reflexivity.
Qed.

Lemma unreadable_config_file_is_fatal_witness :
  Execute W64 log_Fatalf
    (World (Ok "/home/u/.config") (fun a b => a +:+ "/" +:+ b) (Err (ErrOther "toml: invalid character"))
       (ConfigEnv None (fun _ => Ok "threshold = 80") None) None [Signal])
    initial
  = ([LogLine (cfgIssueLine "load" (ErrOther "toml: invalid character"))], Exit 1).
Proof.
  apply (unreadable_config_file_is_fatal W64
           (World (Ok "/home/u/.config") (fun a b => a +:+ "/" +:+ b) (Err (ErrOther "toml: invalid character"))
              (ConfigEnv None (fun _ => Ok "threshold = 80") None) None [Signal])
           "/home/u/.config" (ErrOther "toml: invalid character"));
    reflexivity.
Defined.

(** X16: when the configuration file does not exist and its directory
    cannot be created, the process exits with status 1 after logging the
    issue (worded "create config file"), and the file is not written. *)
Theorem config_dir_failure_is_fatal (ws : wordsize) (w : world)
  (home : string) (e e' : error) :
  userConfigDir w = Ok home ->
  startupLoad w = Err e -> isNotExist e = true ->
  mkdirRes (env w) = Some e' ->
  Execute ws log_Fatalf w initial
  = ([MkdirAll (filepath_Join w home "batheart") (Some e');
      LogLine (cfgIssueLine "create config file" e')],
     Exit 1).
Proof.
  intros Hhome Hload Hne Hmk.
  unfold Execute, parseConfig, handleConfigError, acquireConfig, createConfigDir,
    loadDefaultConfig, k_Load, logCfgIssue.
  rewrite Hhome, Hload. run_M. rewrite Hne, Hmk. reflexivity.
Qed.

Lemma config_dir_failure_is_fatal_witness :
  Execute W64 log_Fatalf
    (World (Ok "/home/u/.config") (fun a b => a +:+ "/" +:+ b) (Err (ErrNotExist "no such file or directory"))
       (ConfigEnv (Some (ErrOther "permission denied")) (fun _ => Ok "threshold = 80") None)
       None [Signal])
    initial
  = ([MkdirAll "/home/u/.config/batheart" (Some (ErrOther "permission denied"));
      LogLine (cfgIssueLine "create config file" (ErrOther "permission denied"))],
     Exit 1).
Proof.
  apply (config_dir_failure_is_fatal W64
           (World (Ok "/home/u/.config") (fun a b => a +:+ "/" +:+ b) (Err (ErrNotExist "no such file or directory"))
              (ConfigEnv (Some (ErrOther "permission denied")) (fun _ => Ok "threshold = 80") None)
              None [Signal])
           "/home/u/.config" (ErrNotExist "no such file or directory")
           (ErrOther "permission denied"));
    reflexivity.
Defined.

(** X17: when the configuration file is loaded at startup and binds
    [threshold] to an integer that fits [uint], the daemon runs with that
    threshold: nothing is logged, created or written before it starts, and
    the defaults are not loaded. *)
Theorem config_file_threshold_is_used (ws : wordsize) (Fatalf : string -> M unit)
  (w : world) (home : string) (m : gmap string value) (n : Z) :
  userConfigDir w = Ok home ->
  startupLoad w = Ok m ->
  m !! "threshold" = Some (VInt n) -> isUint ws n ->
  Execute ws Fatalf w initial
  = runDaemon ws Fatalf (watchRes w) (schedule w) (Some (Config n))
      (State m None 0 None).
Proof.
  intros Hhome Hload Hm Hn.
  unfold Execute. rewrite Hhome, Hload, bind_ret_l.
  assert (Hk : m ∪ k initial = m) by apply (right_id_L ∅ (∪)).
  erewrite run_bind;
    [| rewrite parseConfig_file, Hk, (fieldValue_exact _ _ _ Hm); reflexivity].
  cbv beta iota. rewrite bind_ret_l, (wrap_small ws n Hn).
  change (set_k m initial) with (State m None 0 None).
  now destruct (runDaemon ws Fatalf (watchRes w) (schedule w) (Some (Config n))
                  (State m None 0 None)).
Qed.

Lemma config_file_threshold_is_used_witness :
  Execute W64 log_Fatalf
    (World (Ok "/home/u/.config") (fun a b => a +:+ "/" +:+ b) (Ok {[ "threshold" := VInt 90 ]})
       (ConfigEnv None (fun _ => Ok "threshold = 80") None) None [Signal])
    initial
  = runDaemon W64 log_Fatalf None [Signal] (Some (Config 90))
      (State {[ "threshold" := VInt 90 ]} None 0 None).
Proof.
  apply (config_file_threshold_is_used W64 log_Fatalf
           (World (Ok "/home/u/.config") (fun a b => a +:+ "/" +:+ b) (Ok {[ "threshold" := VInt 90 ]})
              (ConfigEnv None (fun _ => Ok "threshold = 80") None) None [Signal])
           "/home/u/.config" {[ "threshold" := VInt 90 ]} 90).
  - reflexivity.
  - reflexivity.
  - vm_compute. reflexivity.
  - uint_range.
Defined.

(** X18: a configuration file in which the decoder finds no value for the
    threshold (no key equal to "threshold", not even up to case) gives a
    threshold of 0, not the default of 80, both at startup and at a reload:
    the defaults are loaded only when the file does not exist. *)
Theorem missing_threshold_key_gives_zero (ws : wordsize) (Fatalf : string -> M unit)
  (home : string) (join : string -> string -> string) (m : gmap string value)
  (cenv : configEnv) (wres : option error) (sched : list stimulus) (s : state) :
  fieldValue "threshold" m = None ->
  Execute ws Fatalf (World (Ok home) join (Ok m) cenv wres sched) initial
  = runDaemon ws Fatalf wres sched (Some (Config 0)) (State m None 0 None) /\
  watchCallback ws Fatalf (WatchEvent None (Ok m)) s
  = ([LogLine "Config changed, reloading!"],
     Ret (tt, State m (Some (Config 0)) (prevCapacity s) (ticker s))).
Proof.
  intros Hm. split.
  - unfold Execute.
    cbn [userConfigDir filepath_Join startupLoad env watchRes schedule].
    rewrite bind_ret_l.
    assert (Hk : m ∪ k initial = m) by apply (right_id_L ∅ (∪)).
    erewrite run_bind; [| rewrite parseConfig_file, Hk, Hm; reflexivity].
    cbv beta iota. rewrite bind_ret_l.
    change (set_k m initial) with (State m None 0 None).
    now destruct (runDaemon ws Fatalf wres sched (Some (Config 0))
                    (State m None 0 None)).
  - unfold watchCallback, parseConfig, k_Load, k_Unmarshal. run_M.
    rewrite (right_id_L ∅ (∪) m), Hm. reflexivity.
Qed.

Lemma missing_threshold_key_gives_zero_witness :
  Execute W64 log_Fatalf
    (World (Ok "/home/u/.config") (fun a b => a +:+ "/" +:+ b)
       (Ok {[ "treshold" := VInt 90 ]})
       (ConfigEnv None (fun _ => Ok "threshold = 80") None) None [Signal])
    initial
  = runDaemon W64 log_Fatalf None [Signal] (Some (Config 0))
      (State {[ "treshold" := VInt 90 ]} None 0 None) /\
  watchCallback W64 log_Fatalf (WatchEvent None (Ok {[ "treshold" := VInt 90 ]}))
    (State {[ "threshold" := VInt 80 ]} (Some (Config 80)) 55 (Some Minute))
  = ([LogLine "Config changed, reloading!"],
     Ret (tt, State {[ "treshold" := VInt 90 ]} (Some (Config 0)) 55 (Some Minute))).
Proof.
  apply (missing_threshold_key_gives_zero W64 log_Fatalf "/home/u/.config"
           (fun a b => a +:+ "/" +:+ b) {[ "treshold" := VInt 90 ]}
           (ConfigEnv None (fun _ => Ok "threshold = 80") None) None [Signal]
           (State {[ "threshold" := VInt 80 ]} (Some (Config 80)) 55 (Some Minute))).
  vm_compute. reflexivity.
Defined.

Lemma watchCallback_reloaded (ws : wordsize) (Fatalf : string -> M unit)
  (m : gmap string value) (n : Z) (s : state) :
  m !! "threshold" = Some (VInt n) -> isUint ws n ->
  watchCallback ws Fatalf (WatchEvent None (Ok m)) s
  = ([LogLine "Config changed, reloading!"],
     Ret (tt, State m (Some (Config n)) (prevCapacity s) (ticker s))).
Proof.
  intros Hm Hn.
  unfold watchCallback, parseConfig, k_Load, k_Unmarshal. run_M.
  rewrite (right_id_L ∅ (∪) m), (fieldValue_exact _ _ _ Hm). cbn.
  now rewrite (wrap_small ws n Hn).
Qed.

(** X19: a reload that succeeds replaces the configuration from scratch:
    the koanf store becomes exactly what the file holds, the threshold
    becomes the file's, and the old store and the old threshold leave no
    trace; only the reload is logged, and the ticker and [prevCapacity] stay
    as they were. *)
Theorem reload_replaces_config (ws : wordsize) (Fatalf : string -> M unit)
  (m : gmap string value) (n : Z) (s : state) :
  m !! "threshold" = Some (VInt n) -> isUint ws n ->
  watchCallback ws Fatalf (WatchEvent None (Ok m)) s
  = ([LogLine "Config changed, reloading!"],
     Ret (tt, State m (Some (Config n)) (prevCapacity s) (ticker s))).
Proof.
  apply watchCallback_reloaded.
Qed.

Lemma reload_replaces_config_witness :
  watchCallback W64 log_Fatalf (WatchEvent None (Ok {[ "threshold" := VInt 90 ]}))
    (State {[ "threshold" := VInt 80 ]} (Some (Config 80)) 55 (Some Minute))
  = ([LogLine "Config changed, reloading!"],
     Ret (tt, State {[ "threshold" := VInt 90 ]} (Some (Config 90)) 55 (Some Minute))).
Proof.
  apply (reload_replaces_config W64 log_Fatalf {[ "threshold" := VInt 90 ]} 90
           (State {[ "threshold" := VInt 80 ]} (Some (Config 80)) 55 (Some Minute))).
  - vm_compute. reflexivity.
  - uint_range.
Defined.

(** X20: when the user's configuration directory cannot be determined, the
    process logs the issue and exits with status 1 before the configuration
    file is looked at, whatever the rest of the world is. *)
Theorem no_config_home_is_fatal (ws : wordsize) (w : world) (e : error) :
  userConfigDir w = Err e ->
  Execute ws log_Fatalf w initial
  = ([LogLine (cfgIssueLine "obtain user config dir" e)], Exit 1).
Proof.
  intros Hhome. unfold Execute, logCfgIssue. rewrite Hhome. reflexivity.
Qed.

Lemma no_config_home_is_fatal_witness :
  Execute W32 log_Fatalf
    (World (Err (ErrOther "neither $XDG_CONFIG_HOME nor $HOME are defined"))
       (fun a b => a +:+ "/" +:+ b)
       (Ok {[ "threshold" := VInt 90 ]})
       (ConfigEnv None (fun _ => Ok "threshold = 80") None) None [Signal])
    initial
  = ([LogLine (cfgIssueLine "obtain user config dir"
                 (ErrOther "neither $XDG_CONFIG_HOME nor $HOME are defined"))],
     Exit 1).
Proof.
  apply (no_config_home_is_fatal W32
           (World (Err (ErrOther "neither $XDG_CONFIG_HOME nor $HOME are defined"))
       (fun a b => a +:+ "/" +:+ b)
              (Ok {[ "threshold" := VInt 90 ]})
              (ConfigEnv None (fun _ => Ok "threshold = 80") None) None [Signal])
           (ErrOther "neither $XDG_CONFIG_HOME nor $HOME are defined")).
  reflexivity.
Defined.

(** X21: when the configuration file does not exist, its directory is
    created, and writing the file then fails, the process exits with
    status 1 after logging the issue; the directory stays, and the daemon is
    not started. *)
Theorem config_file_write_failure_is_fatal (ws : wordsize) (w : world)
  (home data : string) (e e' : error) :
  userConfigDir w = Ok home ->
  startupLoad w = Err e -> isNotExist e = true ->
  mkdirRes (env w) = None ->
  tomlMarshal (env w) {[ "threshold" := VInt 80 ]} = Ok data ->
  writeRes (env w) = Some e' ->
  Execute ws log_Fatalf w initial
  = ([MkdirAll (filepath_Join w home "batheart") None;
      WriteFile (filepath_Join w (filepath_Join w home "batheart") "config.toml") data
        (Some e');
      LogLine (cfgIssueLine "write to config file" e')],
     Exit 1).
Proof.
  intros Hhome Hload Hne Hmk Hmarshal Hwr.
  unfold Execute, parseConfig, handleConfigError, acquireConfig, createConfigDir,
    createConfigFile, loadDefaultConfig, k_Load, logCfgIssue.
  rewrite Hhome, Hload. run_M. rewrite Hne. cbn. rewrite Hmk. cbn.
  rewrite (right_id_L ∅ (∪)), Hmarshal. cbn. rewrite Hwr. reflexivity.
Qed.

Lemma config_file_write_failure_is_fatal_witness :
  Execute W64 log_Fatalf
    (World (Ok "/home/u/.config") (fun a b => a +:+ "/" +:+ b) (Err (ErrNotExist "no such file or directory"))
       (ConfigEnv None (fun _ => Ok "threshold = 80") (Some (ErrOther "disk full")))
       None [Signal])
    initial
  = ([MkdirAll "/home/u/.config/batheart" None;
      WriteFile "/home/u/.config/batheart/config.toml"
        "threshold = 80" (Some (ErrOther "disk full"));
      LogLine (cfgIssueLine "write to config file" (ErrOther "disk full"))],
     Exit 1).
Proof.
  apply (config_file_write_failure_is_fatal W64
           (World (Ok "/home/u/.config") (fun a b => a +:+ "/" +:+ b) (Err (ErrNotExist "no such file or directory"))
              (ConfigEnv None (fun _ => Ok "threshold = 80") (Some (ErrOther "disk full")))
              None [Signal])
           "/home/u/.config" "threshold = 80"
           (ErrNotExist "no such file or directory") (ErrOther "disk full"));
    reflexivity.
Defined.

(** ** A reload followed by a round *)

(** X22: a reloaded threshold is the one the next round uses, without a
    restart: after a reload to a threshold [n] of at least 1, a round that
    finds the battery charging at a changed capacity of [n] resets the ticker
    to one second and writes "1". *)
Theorem reloaded_threshold_is_polled (ws : wordsize) (Fatalf : string -> M unit)
  (m : gmap string value) (n : Z) (cerr werr : option error)
  (rest : list stimulus) (s : state) :
  m !! "threshold" = Some (VInt n) ->
  isUint8 n -> 1 <= n -> n <> prevCapacity s ->
  let after := State m (Some (Config n)) n (Some (1 * Second)) in
  daemonLoop ws Fatalf
    (ConfigChanged (WatchEvent None (Ok m))
       :: Tick (TickInput (n, None) (true, cerr) werr) :: rest) s
  = (LogLine "Config changed, reloading!"
       :: (chargingLog cerr ++ TickerReset (1 * Second) :: switchTrace werr true)
       ++ (daemonLoop ws Fatalf rest after).1,
     (daemonLoop ws Fatalf rest after).2).
Proof.
  intros Hm H8 H1 Hne. cbv zeta.
  assert (Hn : isUint ws n) by (pose proof (modulus_large ws); uint_range).
  assert (Hc : uint ws n = n) by apply (uint_of_uint8 ws n H8).
  cbn [daemonLoop].
  rewrite (run_bind _ _ _ _ _ tt (watchCallback_reloaded ws Fatalf m n s Hm Hn)).
  cbv beta.
  set (s1 := State m (Some (Config n)) (prevCapacity s) (ticker s)).
  assert (Htick : tickBody ws (TickInput (n, None) (true, cerr) werr) s1
                  = (chargingLog cerr ++ TickerReset (1 * Second) :: switchTrace werr true,
                     Ret (tt, State m (Some (Config n)) n (Some (1 * Second))))).
  { rewrite (tickBody_polled ws n true cerr werr s1 (Config n));
      [| rewrite Hc; exact Hne | reflexivity].
    cbv zeta. cbn [Threshold]. rewrite Hc.
    assert (Hband : (n >? usub ws n 1) && (n <? uadd ws n 1) = true).
    { apply band_true_iff; try assumption.
      split; [reflexivity |]. pose proof (modulus_large ws). uint_range. }
    rewrite Hband. reflexivity. }
  rewrite (run_bind _ _ _ _ _ tt Htick). cbv beta. reflexivity.
Qed.

Lemma reloaded_threshold_is_polled_witness :
  daemonLoop W64 log_Fatalf
    (ConfigChanged (WatchEvent None (Ok {[ "threshold" := VInt 90 ]}))
       :: Tick (TickInput (90, None) (true, None) None) :: [Signal])
    (State {[ "threshold" := VInt 80 ]} (Some (Config 80)) 89 (Some (Minute * 5)))
  = (LogLine "Config changed, reloading!"
       :: (chargingLog None ++ TickerReset (1 * Second) :: switchTrace None true)
       ++ (daemonLoop W64 log_Fatalf [Signal]
             (State {[ "threshold" := VInt 90 ]} (Some (Config 90)) 90 (Some (1 * Second)))).1,
     (daemonLoop W64 log_Fatalf [Signal]
        (State {[ "threshold" := VInt 90 ]} (Some (Config 90)) 90 (Some (1 * Second)))).2).
Proof.
  apply (reloaded_threshold_is_polled W64 log_Fatalf {[ "threshold" := VInt 90 ]} 90
           None None [Signal]
           (State {[ "threshold" := VInt 80 ]} (Some (Config 80)) 89 (Some (Minute * 5)))).
  - vm_compute. reflexivity.
  - uint_range.
  - lia.
  - cbn. lia.
Defined.
